(** * Transcription tool: output formatting and artifact generation

    A shallow embedding of [trascrivi.py] and the proofs of its
    formatting and artifact contract.  Python floats are IEEE binary64
    values ([spec_float] with precision 53), Python strings are lists
    of code points, exceptions are an error monad, and console, files
    and engine calls are an explicit state. *)

From Stdlib Require Import String Ascii.
From Stdlib Require Import Morphisms ZArith NArith QArith Qround Qpower Qabs Qfield.
From Stdlib Require Import Lia Lqa List Bool Decimal DecimalN.
From Stdlib Require Import SpecFloat.
Import ListNotations.
Open Scope Z_scope.

(** ** Text *)

(** A Python [str] is a sequence of Unicode code points. *)
Definition char : Type := N.
Definition str : Type := list char.

Definition lit (s : string) : str := List.map N_of_ascii (list_ascii_of_string s).

Definition nl : str := [10%N].

Fixpoint str_eqb (a b : str) : bool :=
  match a, b with
  | [], [] => true
  | x :: a', y :: b' => (x =? y)%N && str_eqb a' b'
  | _, _ => false
  end.

(** [str.isspace] on one code point. *)
Definition isspace (c : char) : bool :=
  ((9 <=? c) && (c <=? 13) || (28 <=? c) && (c <=? 31) || (c =? 32)
   || (c =? 133) || (c =? 160) || (c =? 5760)
   || (8192 <=? c) && (c <=? 8202) || (c =? 8232) || (c =? 8233)
   || (c =? 8239) || (c =? 8287) || (c =? 12288))%N.

Fixpoint lstrip (s : str) : str :=
  match s with
  | c :: s' => if isspace c then lstrip s' else s
  | [] => []
  end.

Definition rstrip (s : str) : str := List.rev (lstrip (List.rev s)).

(** [str.strip()] *)
Definition strip (s : str) : str := rstrip (lstrip s).

(** [sep.join(l)] *)
Fixpoint join (sep : str) (l : list str) : str :=
  match l with
  | [] => []
  | [x] => x
  | x :: l' => x ++ sep ++ join sep l'
  end.

Fixpoint starts_with (p s : str) : bool :=
  match p, s with
  | [], _ => true
  | a :: p', b :: s' => (a =? b)%N && starts_with p' s'
  | _ :: _, [] => false
  end.

(** [needle in hay] on strings. *)
Fixpoint contains (needle hay : str) : bool :=
  starts_with needle hay ||
  match hay with
  | [] => false
  | _ :: hay' => contains needle hay'
  end.

(** ASCII letters of [str.lower()]; the only use compares a file
    suffix with [.mp4]. *)
Definition lower (s : str) : str :=
  List.map (fun c => if ((65 <=? c) && (c <=? 90))%N then (c + 32)%N else c) s.

Fixpoint uint_chars (d : Decimal.uint) : str :=
  match d with
  | Nil => []
  | D0 d => 48%N :: uint_chars d
  | D1 d => 49%N :: uint_chars d
  | D2 d => 50%N :: uint_chars d
  | D3 d => 51%N :: uint_chars d
  | D4 d => 52%N :: uint_chars d
  | D5 d => 53%N :: uint_chars d
  | D6 d => 54%N :: uint_chars d
  | D7 d => 55%N :: uint_chars d
  | D8 d => 56%N :: uint_chars d
  | D9 d => 57%N :: uint_chars d
  end.

(** Decimal digits of a natural number, most significant first. *)
Definition digits_of (n : N) : str := uint_chars (N.to_uint n).

Definition zfill (width : nat) (ds : str) : str :=
  repeat 48%N (width - List.length ds) ++ ds.

(** The format specification [0<width>d]: sign-aware zero padding. *)
Definition format_d (width : nat) (z : Z) : str :=
  if z <? 0 then 45%N :: zfill (width - 1) (digits_of (Z.to_N (- z)))
  else zfill width (digits_of (Z.to_N z)).

(** [str(i)] on an [int]. *)
Definition str_of_int (z : Z) : str := format_d 0 z.

(** ** Exceptions *)

(** Instances of Python's [Exception]; [sys.exit] is a separate outcome. *)
Inductive exn_class : Type :=
  | ZeroDivisionError
  | ValueError
  | OverflowError
  | ImportError
  | ModuleNotFoundError
  | RuntimeError
  | UnicodeEncodeError.

Record exn : Type := { exn_kind : exn_class; exn_text : str }.

Definition is_ImportError (e : exn) : bool :=
  match exn_kind e with
  | ImportError | ModuleNotFoundError => true
  | _ => false
  end.

Inductive res (A : Type) : Type :=
  | Ok (a : A)
  | Raise (e : exn).
Arguments Ok {A} a.
Arguments Raise {A} e.

Definition res_bind {A B : Type} (r : res A) (k : A -> res B) : res B :=
  match r with
  | Ok a => k a
  | Raise e => Raise e
  end.

Declare Scope res_scope.
Delimit Scope res_scope with res.
Notation "x <- c1 ;; c2" := (res_bind c1 (fun x => c2))
  (at level 61, c1 at next level, right associativity) : res_scope.

(** The classes of [BaseException] outside [Exception]: what the
    environment raises to interrupt or end the process. *)
Inductive interrupt : Type :=
  | KeyboardInterrupt
  | SystemExit
  | GeneratorExit.

(** What a [try] block does: it returns, raises an instance of
    [Exception], or is cut short by an interrupt. *)
Inductive attempt (A : Type) : Type :=
  | Returned (a : A)
  | Failed (e : exn)
  | Interrupted (i : interrupt).
Arguments Returned {A} a.
Arguments Failed {A} e.
Arguments Interrupted {A} i.

(** [try: body except Exception: handler]: the handler runs on
    instances of [Exception] only. *)
Definition try_except_Exception {A : Type} (body handler : attempt A) : attempt A :=
  match body with
  | Returned a => Returned a
  | Failed _ => handler
  | Interrupted i => Interrupted i
  end.

(** ** Binary64 arithmetic *)

Module F64.
Definition prec : Z := 53.
Definition emax : Z := 1024.
Definition float : Type := spec_float.
Definition of_dyadic (m e : Z) : float := binary_normalize prec emax m e false.
Definition of_Z (z : Z) : float := of_dyadic z 0.
Definition zero : float := S754_zero false.
Definition add : float -> float -> float := SFadd prec emax.
Definition sub : float -> float -> float := SFsub prec emax.
Definition mul : float -> float -> float := SFmul prec emax.
Definition div : float -> float -> float := SFdiv prec emax.
Definition ltb : float -> float -> bool := SFltb.
Definition is_zero (x : float) : bool :=
  match x with S754_zero _ => true | _ => false end.
Definition signbit (x : float) : bool :=
  match x with
  | S754_zero s | S754_infinity s | S754_finite s _ _ => s
  | S754_nan => false
  end.
Definition copysign (x y : float) : float :=
  match x with
  | S754_zero _ => S754_zero (signbit y)
  | S754_infinity _ => S754_infinity (signbit y)
  | S754_finite _ m e => S754_finite (signbit y) m e
  | S754_nan => S754_nan
  end.
(** C [fmod]: the exact remainder, with the sign of the dividend. *)
Definition fmod (x y : float) : float :=
  match x, y with
  | S754_nan, _ | _, S754_nan => S754_nan
  | S754_infinity _, _ => S754_nan
  | _, S754_zero _ => S754_nan
  | S754_zero _, _ => x
  | S754_finite _ _ _, S754_infinity _ => x
  | S754_finite sx mx ex, S754_finite _ my ey =>
      let ez := Z.min ex ey in
      let ax := Z.shiftl (Zpos mx) (ex - ez) in
      let ay := Z.shiftl (Zpos my) (ey - ez) in
      binary_normalize prec emax (cond_Zopp sx (ax mod ay)) ez sx
  end.
(** C [floor]. *)
Definition floor (x : float) : float :=
  match x with
  | S754_finite sx mx ex =>
      if 0 <=? ex then x
      else binary_normalize prec emax
             (Z.shiftr (cond_Zopp sx (Zpos mx)) (- ex)) 0 sx
  | _ => x
  end.
(** Truncation toward zero of a finite value. *)
Definition trunc (x : float) : option Z :=
  match x with
  | S754_zero _ => Some 0
  | S754_finite sx mx ex => Some (cond_Zopp sx (Z.shiftl (Zpos mx) ex))
  | _ => None
  end.
End F64.
Import F64.

(** The float [%] operator. *)
Definition float_rem (vx wx : float) : res float :=
  if is_zero wx then Raise {| exn_kind := ZeroDivisionError; exn_text := lit "float modulo" |}
  else
    let md := fmod vx wx in
    if negb (is_zero md) then
      if xorb (ltb wx zero) (ltb md zero) then Ok (add md wx) else Ok md
    else Ok (copysign zero wx).

(** The float [//] operator. *)
Definition float_floor_div (vx wx : float) : res float :=
  if is_zero wx then Raise {| exn_kind := ZeroDivisionError; exn_text := lit "float divmod()" |}
  else
    let md := fmod vx wx in
    let dv := div (sub vx md) wx in
    let dv := if negb (is_zero md) && xorb (ltb wx zero) (ltb md zero)
              then sub dv (of_Z 1) else dv in
    if negb (is_zero dv) then
      let fd := floor dv in
      if ltb (of_dyadic 1 (-1)) (sub dv fd) then Ok (add fd (of_Z 1)) else Ok fd
    else Ok (copysign zero (div vx wx)).

(** [int(x)] on a float. *)
Definition py_int (x : float) : res Z :=
  match trunc x with
  | Some z => Ok z
  | None =>
      match x with
      | S754_nan =>
          Raise {| exn_kind := ValueError;
                   exn_text := lit "cannot convert float NaN to integer" |}
      | _ =>
          Raise {| exn_kind := OverflowError;
                   exn_text := lit "cannot convert float infinity to integer" |}
      end
  end.

(** ** Timestamps *)

(** The four assignments of [format_timestamp]. *)
Definition timestamp_fields (seconds : float) : res (Z * Z * Z * Z) :=
  (q <- float_floor_div seconds (of_Z 3600) ;;
   hours <- py_int q ;;
   r <- float_rem seconds (of_Z 3600) ;;
   q <- float_floor_div r (of_Z 60) ;;
   minutes <- py_int q ;;
   r <- float_rem seconds (of_Z 60) ;;
   secs <- py_int r ;;
   r <- float_rem seconds (of_Z 1) ;;
   millis <- py_int (mul r (of_Z 1000)) ;;
   Ok (hours, minutes, secs, millis))%res.

Definition render_timestamp (f : Z * Z * Z * Z) : str :=
  let '(hours, minutes, secs, millis) := f in
  format_d 2 hours ++ lit ":" ++ format_d 2 minutes ++ lit ":" ++
  format_d 2 secs ++ lit "," ++ format_d 3 millis.

Definition format_timestamp (seconds : float) : res str :=
  (f <- timestamp_fields seconds ;; Ok (render_timestamp f))%res.

Definition format_timestamp_simple (seconds : float) : res str :=
  (q <- float_floor_div seconds (of_Z 60) ;;
   minutes <- py_int q ;;
   r <- float_rem seconds (of_Z 60) ;;
   secs <- py_int r ;;
   Ok (lit "[" ++ format_d 2 minutes ++ lit ":" ++ format_d 2 secs ++ lit "]"))%res.

Set Warnings "-register-all".

(** ** Segments and files *)

(** A segment object yielded by the engine. *)
Record segment : Type := {
  seg_id : Z;
  seg_start : float;
  seg_end : float;
  seg_text : str;
  seg_avg_logprob : float;
  seg_no_speech_prob : float
}.

(** The per-segment dictionary built by [trascrivi]. *)
Record seg_data : Type := {
  sd_id : Z;
  sd_start : float;
  sd_end : float;
  sd_text : str;
  sd_avg_logprob : float;
  sd_no_speech_prob : float
}.

Record path : Type := { parent : str; name : str }.

(** [str(path)] *)
Definition path_str (p : path) : str := parent p ++ lit "/" ++ name p.

(** Position of the last occurrence of [c], counting from [i]. *)
Fixpoint rfind (c : char) (s : str) (i : nat) : option nat :=
  match s with
  | [] => None
  | x :: s' =>
      match rfind c s' (S i) with
      | Some j => Some j
      | None => if (x =? c)%N then Some i else None
      end
  end.

(** [Path.suffix] *)
Definition suffix (p : path) : str :=
  match rfind 46%N (name p) 0 with
  | Some i =>
      if (0 <? i)%nat && (i <? List.length (name p) - 1)%nat
      then skipn i (name p) else []
  | None => []
  end.

(** [Path.stem] *)
Definition stem (p : path) : str :=
  match rfind 46%N (name p) 0 with
  | Some i =>
      if (0 <? i)%nat && (i <? List.length (name p) - 1)%nat
      then firstn i (name p) else name p
  | None => name p
  end.

(** [output_dir / file_name] *)
Definition joinpath (dir : str) (file_name : str) : path :=
  {| parent := dir; name := file_name |}.

Inductive json : Type :=
  | JBool (b : bool)
  | JInt (z : Z)
  | JFloat (x : float)
  | JStr (s : str)
  | JList (l : list json)
  | JDict (items : list (str * json)).

Fixpoint assoc (k : str) (items : list (str * json)) : option json :=
  match items with
  | [] => None
  | (k', v) :: rest => if str_eqb k k' then Some v else assoc k rest
  end.

(** [doc[k]] on a dictionary. *)
Definition jget (k : string) (doc : json) : option json :=
  match doc with
  | JDict items => assoc (lit k) items
  | _ => None
  end.

(** ** The engine and its environment *)

Record generator : Type := { yielded : list segment; failure : option exn }.

Record transcription_info : Type := {
  language : str;
  language_probability : float;
  duration : float
}.

(** What [import ctranslate2] and [get_supported_compute_types("cuda")] do
    when nothing interrupts them. *)
Inductive probe : Type :=
  | ImportFails (e : exn)
  | QueryFails (e : exn)
  | Supported (types : list str).

(** The same in an environment that may also interrupt the import or
    the query. *)
Inductive probing : Type :=
  | Probe (p : probe)
  | ImportInterrupted (i : interrupt)
  | QueryInterrupted (i : interrupt).
Coercion Probe : probe >-> probing.

Record load_request : Type := {
  lr_model : str;
  lr_device : str;
  lr_compute_type : str
}.

Record transcribe_request : Type := {
  tr_path : str;
  tr_language : str;
  tr_beam_size : Z;
  tr_vad_filter : bool;
  tr_min_silence_duration_ms : Z
}.

Inductive call : Type :=
  | LoadModel (r : load_request)
  | Transcribe (r : transcribe_request).

Record world : Type := {
  resolve : str -> path;
  path_exists : path -> bool;
  ctranslate2 : probe;
  import_faster_whisper : option exn;
  WhisperModel : load_request -> option exn;
  model_transcribe : load_request -> transcribe_request -> res (generator * transcription_info);
  elapsed_seconds : float;
  now_isoformat : str
}.

(** Code points that UTF-8 encodes: all but the surrogates. *)
Definition encodable (c : char) : bool := negb ((55296 <=? c) && (c <=? 57343))%N.

(** [text.encode("utf-8")] succeeds. *)
Definition utf8 (text : str) : bool := forallb encodable text.

(** Library renderings the program relies on.  The rendering of the
    metadata document is taken to be encodable, as the path and the
    strings of the engine are. *)
Record runtime : Type := {
  format_f1 : float -> str;
  format_pct1 : float -> str;
  json_dumps : json -> str;
  json_dumps_utf8 : forall data, utf8 (json_dumps data) = true
}.

(** ** Console, files and engine calls *)

Record state : Type := {
  stdout : list str;
  files : list (path * str);
  calls : list call
}.

Definition init : state := {| stdout := []; files := []; calls := [] |}.

Inductive outcome (A : Type) : Type :=
  | Done (a : A)
  | Raised (e : exn)
  | Exited (code : Z)
  | Aborted (i : interrupt).
Arguments Done {A} a.
Arguments Raised {A} e.
Arguments Exited {A} code.
Arguments Aborted {A} i.

Definition M (A : Type) : Type := state -> outcome A * state.

Definition m_ret {A : Type} (a : A) : M A := fun s => (Done a, s).

Definition m_bind {A B : Type} (c : M A) (k : A -> M B) : M B :=
  fun s =>
    match c s with
    | (Done a, s') => k a s'
    | (Raised e, s') => (Raised e, s')
    | (Exited code, s') => (Exited code, s')
    | (Aborted i, s') => (Aborted i, s')
    end.

Declare Scope run_scope.
Delimit Scope run_scope with run.
Notation "x <- c1 ;; c2" := (m_bind c1 (fun x => c2))
  (at level 61, c1 at next level, right associativity) : run_scope.
Notation "c1 ;; c2" := (m_bind c1 (fun _ => c2))
  (at level 61, right associativity) : run_scope.

Definition lift {A : Type} (r : res A) : M A :=
  fun s => match r with Ok a => (Done a, s) | Raise e => (Raised e, s) end.

Definition lift_attempt {A : Type} (r : attempt A) : M A :=
  fun s =>
    match r with
    | Returned a => (Done a, s)
    | Failed e => (Raised e, s)
    | Interrupted i => (Aborted i, s)
    end.

Definition print (line : str) : M unit :=
  fun s => (Done tt, {| stdout := stdout s ++ [line]; files := files s; calls := calls s |}).

Definition sys_exit {A : Type} (code : Z) : M A := fun s => (Exited code, s).

Definition raise {A : Type} (e : exn) : M A := fun s => (Raised e, s).

Definition record (c : call) : M unit :=
  fun s => (Done tt, {| stdout := stdout s; files := files s; calls := calls s ++ [c] |}).

Definition when (b : bool) (c : M unit) : M unit := if b then c else m_ret tt.

(** The body of a [with open(path, "w") as f] block: it appends to the
    text written so far and may raise. *)
Definition writer (A : Type) : Type := str -> res A * str.

Definition w_ret {A : Type} (a : A) : writer A := fun buf => (Ok a, buf).

Definition w_bind {A B : Type} (c : writer A) (k : A -> writer B) : writer B :=
  fun buf =>
    match c buf with
    | (Ok a, buf') => k a buf'
    | (Raise e, buf') => (Raise e, buf')
    end.

Declare Scope writer_scope.
Delimit Scope writer_scope with writer.
Notation "x <- c1 ;; c2" := (w_bind c1 (fun x => c2))
  (at level 61, c1 at next level, right associativity) : writer_scope.
Notation "c1 ;; c2" := (w_bind c1 (fun _ => c2))
  (at level 61, right associativity) : writer_scope.

Definition hex_digit (n : N) : char := (if n <? 10 then 48 + n else 87 + n)%N.

(** The escape [\udxxx] of a surrogate in an error message. *)
Definition escape_u (c : char) : str :=
  [92; 117; hex_digit (c / 4096); hex_digit (c / 256 mod 16);
   hex_digit (c / 16 mod 16); hex_digit (c mod 16)]%N.

(** The first run of surrogates of a text: its first code point, its
    position and its length. *)
Fixpoint span_surrogates (text : str) : str * str :=
  match text with
  | c :: text' =>
      if encodable c then ([], text)
      else let '(run, rest) := span_surrogates text' in (c :: run, rest)
  | [] => ([], [])
  end.

Fixpoint surrogates (text : str) (i : Z) : option (char * Z * Z) :=
  match text with
  | [] => None
  | c :: text' =>
      if encodable c then surrogates text' (i + 1)
      else
        let run := List.length (fst (span_surrogates text')) in
        Some (c, i, Z.of_nat run + 1)
  end.

(** The [UnicodeEncodeError] of the UTF-8 codec in strict mode. *)
Definition encode_error (text : str) : exn :=
  {| exn_kind := UnicodeEncodeError;
     exn_text :=
       match surrogates text 0 with
       | Some (c, i, 1) =>
           lit "'utf-8' codec can't encode character '" ++ escape_u c ++
           lit "' in position " ++ str_of_int i ++ lit ": surrogates not allowed"
       | Some (_, i, n) =>
           lit "'utf-8' codec can't encode characters in position " ++
           str_of_int i ++ lit "-" ++ str_of_int (i + n - 1) ++
           lit ": surrogates not allowed"
       | None => []
       end |}.

(** [f.write(text)] on a file opened with [encoding="utf-8"]: a text
    with a lone surrogate is not written and raises. *)
Definition f_write (text : str) : writer unit :=
  fun buf =>
    if utf8 text then (Ok tt, buf ++ text) else (Raise (encode_error text), buf).

Definition w_lift {A : Type} (r : res A) : writer A := fun buf => (r, buf).

Fixpoint for_each {A : Type} (l : list A) (body : A -> writer unit) : writer unit :=
  match l with
  | [] => w_ret tt
  | x :: l' => (body x ;; for_each l' body)%writer
  end.

(** The file is created empty, receives what the body writes and is
    closed whether or not the body raises. *)
Definition with_open_w (p : path) (body : writer unit) : M unit :=
  fun s =>
    let '(r, buf) := body [] in
    let s' := {| stdout := stdout s; files := files s ++ [(p, buf)]; calls := calls s |} in
    match r with
    | Ok _ => (Done tt, s')
    | Raise e => (Raised e, s')
    end.

(** [enumerate(l, start)] *)
Fixpoint enumerate {A : Type} (start : Z) (l : list A) : list (Z * A) :=
  match l with
  | [] => []
  | x :: l' => (start, x) :: enumerate (start + 1) l'
  end.

(** ** The program *)

Definition check_cuda_available (p : probing) : attempt bool :=
  try_except_Exception
    match p with
    | Probe (ImportFails e) => Failed e
    | ImportInterrupted i => Interrupted i
    | Probe (QueryFails e) => Failed e
    | QueryInterrupted i => Interrupted i
    | Probe (Supported types) =>
        Returned ((0 <? List.length types)%nat && existsb (str_eqb (lit "float16")) types)
    end
    (Returned false).

Definition write_srt (segments : list seg_data) (output_path : path) : M unit :=
  with_open_w output_path
    (for_each (enumerate 1 segments) (fun '(i, seg) =>
       (f_write (str_of_int i ++ nl) ;;
        t_start <- w_lift (format_timestamp (sd_start seg)) ;;
        t_end <- w_lift (format_timestamp (sd_end seg)) ;;
        f_write (t_start ++ lit " --> " ++ t_end ++ nl) ;;
        f_write (strip (sd_text seg) ++ nl ++ nl))%writer)).

Definition write_txt (segments : list seg_data) (output_path : path) : M unit :=
  with_open_w output_path
    (for_each segments (fun seg => f_write (strip (sd_text seg) ++ nl))).

Definition write_json (rt : runtime) (data : json) (output_path : path) : M unit :=
  with_open_w output_path (f_write (json_dumps rt data)).

Definition seg_json (seg : seg_data) : json :=
  JDict [ (lit "id", JInt (sd_id seg));
          (lit "start", JFloat (sd_start seg));
          (lit "end", JFloat (sd_end seg));
          (lit "text", JStr (sd_text seg));
          (lit "avg_logprob", JFloat (sd_avg_logprob seg));
          (lit "no_speech_prob", JFloat (sd_no_speech_prob seg)) ].

(** The loop over the segment generator. *)
Fixpoint collect (gen : list segment) (segments_list : list seg_data)
    (full_text : list str) : M (list seg_data * list str) :=
  match gen with
  | [] => m_ret (segments_list, full_text)
  | segment :: rest =>
      let seg_data :=
        {| sd_id := seg_id segment;
           sd_start := seg_start segment;
           sd_end := seg_end segment;
           sd_text := seg_text segment;
           sd_avg_logprob := seg_avg_logprob segment;
           sd_no_speech_prob := seg_no_speech_prob segment |} in
      let segments_list := segments_list ++ [seg_data] in
      let full_text := full_text ++ [strip (seg_text segment)] in
      (timestamp <- lift (format_timestamp_simple (seg_start segment)) ;;
       print (timestamp ++ lit " " ++ strip (seg_text segment)) ;;
       collect rest segments_list full_text)%run
  end.

Definition rule : str := repeat 45%N 60.

Definition json_data (rt : runtime) (w : world) (input_path : path)
    (device compute_type : str) (beam_size : Z) (info : transcription_info)
    (segments_list : list seg_data) (full_text : list str) : json :=
  JDict [
    (lit "file_sorgente", JStr (path_str input_path));
    (lit "data_trascrizione", JStr (now_isoformat w));
    (lit "parametri", JDict [
       (lit "modello", JStr (lit "large-v3"));
       (lit "device", JStr device);
       (lit "compute_type", JStr compute_type);
       (lit "beam_size", JInt beam_size);
       (lit "vad_filter", JBool true);
       (lit "lingua_impostata", JStr (lit "it")) ]);
    (lit "info_audio", JDict [
       (lit "lingua_rilevata", JStr (language info));
       (lit "probabilita_lingua", JFloat (language_probability info));
       (lit "durata_totale_secondi", JFloat (duration info)) ]);
    (lit "statistiche", JDict [
       (lit "numero_segmenti", JInt (Z.of_nat (List.length segments_list)));
       (lit "tempo_elaborazione_secondi", JFloat (elapsed_seconds w)) ]);
    (lit "segmenti", JList (List.map seg_json segments_list));
    (lit "testo_completo", JStr (join nl full_text)) ].

Definition trascrivi (rt : runtime) (w : world) (input_file : str) (beam_size : Z) : M unit :=
  let input_path := resolve w input_file in
  if negb (path_exists w input_path) then
    (print (lit "Errore: File non trovato: " ++ path_str input_path) ;;
     sys_exit 1)%run
  else
  (when (negb (str_eqb (lower (suffix input_path)) (lit ".mp4")))
     (print (lit "Attenzione: Il file non ha estensione .mp4, procedo comunque...")) ;;
   use_cuda <- lift_attempt (check_cuda_available (ctranslate2 w)) ;;
   let device := if use_cuda : bool then lit "cuda" else lit "cpu" in
   let compute_type := if use_cuda : bool then lit "float16" else lit "int8" in
   print (if use_cuda : bool
          then lit "GPU CUDA rilevata, utilizzo accelerazione GPU con float16"
          else lit "Attenzione: CUDA non disponibile, utilizzo CPU (sar" ++ [224%N] ++
               lit " pi" ++ [249%N] ++ lit " lento)") ;;
   print (lit "Caricamento modello large-v3...") ;;
   match import_faster_whisper w with
   | Some e =>
       if is_ImportError e then
         print (lit "Errore: faster-whisper non installato. Esegui: pip install faster-whisper") ;;
         sys_exit 1
       else raise e
   | None =>
   let model := {| lr_model := lit "large-v3"; lr_device := device;
                   lr_compute_type := compute_type |} in
   record (LoadModel model) ;;
   match WhisperModel w model with
   | Some e =>
       print (lit "Errore nel caricamento del modello: " ++ exn_text e) ;;
       when (contains (lit "CUDA") (exn_text e) || contains (lit "cuda") (exn_text e))
         (print (lit "Problema con CUDA. Verificare driver NVIDIA e installazione CUDA.")) ;;
       sys_exit 1
   | None =>
   print (lit "Modello caricato. Inizio trascrizione di: " ++ name input_path) ;;
   print (lit "Parametri: beam_size=" ++ str_of_int beam_size ++
          lit ", vad_filter=True, lingua=italiano") ;;
   print rule ;;
   let request := {| tr_path := path_str input_path; tr_language := lit "it";
                     tr_beam_size := beam_size; tr_vad_filter := true;
                     tr_min_silence_duration_ms := 500 |} in
   record (Transcribe request) ;;
   match model_transcribe w model request with
   | Raise e =>
       print (lit "Errore durante la trascrizione: " ++ exn_text e) ;;
       sys_exit 1
   | Ok (segments_generator, info) =>
   print (nl ++ lit "Trascrizione in corso..." ++ nl) ;;
   collected <- collect (yielded segments_generator) [] [] ;;
   let '(segments_list, full_text) := collected in
   match failure segments_generator with
   | Some e => raise e
   | None =>
   print rule ;;
   print (nl ++ lit "Trascrizione completata in " ++ format_f1 rt (elapsed_seconds w) ++
          lit " secondi") ;;
   let output_dir := parent input_path in
   let base_name := stem input_path in
   let txt_path := joinpath output_dir (base_name ++ lit "_trascrizione.txt") in
   let srt_path := joinpath output_dir (base_name ++ lit "_trascrizione.srt") in
   let json_path := joinpath output_dir (base_name ++ lit "_trascrizione.json") in
   let data := json_data rt w input_path device compute_type beam_size info
                 segments_list full_text in
   write_txt segments_list txt_path ;;
   write_srt segments_list srt_path ;;
   write_json rt data json_path ;;
   print (nl ++ lit "File salvati:") ;;
   print (lit "  - Testo:      " ++ path_str txt_path) ;;
   print (lit "  - Sottotitoli: " ++ path_str srt_path) ;;
   print (lit "  - JSON:       " ++ path_str json_path) ;;
   print (nl ++ lit "Durata audio: " ++ format_f1 rt (duration info) ++
          lit "s | Lingua rilevata: " ++ language info ++ lit " (" ++
          format_pct1 rt (language_probability info) ++ lit ")")
   end end end end)%run.

(** ** Specification vocabulary *)

(** The dyadic rational [m * 2^e]. *)
Definition dy (m e : Z) : Q := (inject_Z m * 2 ^ e)%Q.

(** The rational value of a finite float. *)
Definition B2Q (x : float) : Q :=
  match x with
  | S754_finite s m e => dy (cond_Zopp s (Zpos m)) e
  | _ => 0%Q
  end.

(** [a mod b] on rationals, for a positive [b]. *)
Definition Qmod (a b : Q) : Q := (a - b * inject_Z (Qfloor (a / b)))%Q.

Definition fexp64 (e : Z) : Z := Z.max (e - 53) (-1074).

(** Well-formed finite non-negative binary64 values. *)
Definition wf (x : float) : Prop :=
  match x with
  | S754_zero _ => True
  | S754_finite false m e => bounded 53 1024 m e = true
  | _ => False
  end.

(** Canonical, finite, non-negative, with a positive zero. *)
Definition nn (x : float) : Prop :=
  match x with
  | S754_zero false => True
  | S754_finite false m e => bounded 53 1024 m e = true
  | _ => False
  end.

Definition nonneg_float (x : float) : Prop :=
  match x with
  | S754_zero false | S754_finite false _ _ => True
  | _ => False
  end.

(** A seconds value below [2^53]: a well-formed finite non-negative
    binary64 in the range in which a double still resolves whole
    seconds, and in which the quotients and remainders of
    [format_timestamp] are computed without rounding. *)
Definition seconds_value (s : float) : Prop :=
  wf s /\ (B2Q s < inject_Z (2 ^ 53))%Q.

(** State of the right-shift loop of the rounding step after [j]
    one-bit shifts of the mantissa [m]. *)
Definition shr_inv (m j : Z) (mrs : shr_record) : Prop :=
  0 <= shr_m mrs /\
  exists rem,
    m = shr_m mrs * 2 ^ j + rem /\ 0 <= rem < 2 ^ j /\
    (if shr_r mrs then 2 ^ j <= 2 * rem else 2 * rem < 2 ^ j) /\
    (if shr_s mrs
     then (if shr_r mrs then 2 ^ j < 2 * rem else 0 < rem)
     else (if shr_r mrs then 2 * rem = 2 ^ j else rem = 0)).

(** Nearest integer, ties to even: Python's [round]. *)
Definition round_half_even (x : Q) : Z :=
  let f := Qfloor x in
  match Qcompare (x - inject_Z f) (1 # 2) with
  | Lt => f
  | Gt => f + 1
  | Eq => if Z.even f then f else f + 1
  end.

(** The four fields as the specification words them, on the exact value. *)
Definition specified_fields (x : Q) : Z * Z * Z * Z :=
  (Qfloor (x / 3600), Qfloor (Qmod x 3600 / 60), Qfloor (Qmod x 60),
   round_half_even (Qmod x 1 * 1000)).

(** The fields with the millisecond field truncated. *)
Definition truncated_fields (x : Q) (millis : Z) : Z * Z * Z * Z :=
  (Qfloor (x / 3600), Qfloor (Qmod x 3600 / 60), Qfloor (Qmod x 60), millis).

(** *** The subtitle timing grammar [HH:MM:SS,mmm] *)

Fixpoint chars_uint (s : str) : option Decimal.uint :=
  match s with
  | [] => Some Nil
  | c :: s' =>
      match chars_uint s' with
      | None => None
      | Some d =>
          if (c =? 48)%N then Some (D0 d) else
          if (c =? 49)%N then Some (D1 d) else
          if (c =? 50)%N then Some (D2 d) else
          if (c =? 51)%N then Some (D3 d) else
          if (c =? 52)%N then Some (D4 d) else
          if (c =? 53)%N then Some (D5 d) else
          if (c =? 54)%N then Some (D6 d) else
          if (c =? 55)%N then Some (D7 d) else
          if (c =? 56)%N then Some (D8 d) else
          if (c =? 57)%N then Some (D9 d) else None
      end
  end.

(** The number written by a non-empty string of decimal digits. *)
Definition number (s : str) : option Z :=
  match s with
  | [] => None
  | _ => option_map (fun d => Z.of_N (N.of_uint d)) (chars_uint s)
  end.

Definition is_digit (c : char) : bool := ((48 <=? c) && (c <=? 57))%N.

(** The characters of a formatted number or timestamp: digits, the
    minus sign, the colon and the comma. *)
Definition plain (c : char) : bool :=
  (is_digit c || (c =? 45) || (c =? 58) || (c =? 44))%N.

Fixpoint span_digits (s : str) : str * str :=
  match s with
  | c :: s' =>
      if is_digit c then let '(ds, rest) := span_digits s' in (c :: ds, rest)
      else ([], s)
  | [] => ([], [])
  end.

(** Reads [HH:MM:SS,mmm]: at least two hour digits, two minute digits
    in 00-59, two second digits in 00-59, three millisecond digits. *)
Definition parse_srt_time (t : str) : option (Z * Z * Z * Z) :=
  let '(hh, rest) := span_digits t in
  match rest with
  | [c1; m1; m2; c2; s1; s2; c3; k1; k2; k3] =>
      if (2 <=? List.length hh)%nat && (c1 =? 58)%N && (c2 =? 58)%N && (c3 =? 44)%N then
        match number hh, number [m1; m2], number [s1; s2], number [k1; k2; k3] with
        | Some h, Some m, Some s, Some k =>
            if (m <=? 59) && (s <=? 59) then Some (h, m, s, k) else None
        | _, _, _, _ => None
        end
      else None
  | _ => None
  end.

(** The time a parsed timestamp denotes, in seconds. *)
Definition decoded (f : Z * Z * Z * Z) : Q :=
  let '(h, m, s, k) := f in
  (inject_Z (h * 3600 + m * 60 + s) + inject_Z k / 1000)%Q.

(** *** Lines of a file *)

(** The lines of a text, split at newlines; [cur] holds the characters
    of the current line, last first. *)
Fixpoint read_lines_from (cur : str) (s : str) : list str :=
  match s with
  | [] => match cur with [] => [] | _ => [List.rev cur] end
  | c :: s' =>
      if (c =? 10)%N then List.rev cur :: read_lines_from [] s'
      else read_lines_from (c :: cur) s'
  end.

Definition read_lines (s : str) : list str := read_lines_from [] s.

(** A text that stays on one line: no newline and no carriage return
    inside. *)
Definition one_line (x : str) : Prop := ~ In 10%N x /\ ~ In 13%N x.

(** *** Documents *)

(** Newline-terminated lines, one after the other. *)
Definition lines (l : list str) : str :=
  List.concat (List.map (fun x => x ++ nl) l).

(** The four lines of subtitle block [i]. *)
Definition srt_block (i : Z) (seg : seg_data) (stamps : str * str) : list str :=
  [ str_of_int i;
    fst stamps ++ lit " --> " ++ snd stamps;
    strip (sd_text seg);
    [] ].

(** The lines of a subtitle file whose first block has index [i]. *)
Fixpoint srt_lines (i : Z) (segs : list seg_data) (stamps : list (str * str)) : list str :=
  match segs, stamps with
  | seg :: segs', st :: stamps' => srt_block i seg st ++ srt_lines (i + 1) segs' stamps'
  | _, _ => []
  end.

Definition srt_document (segs : list seg_data) (stamps : list (str * str)) : str :=
  lines (srt_lines 1 segs stamps).

Definition txt_lines (segs : list seg_data) : list str :=
  List.map (fun seg => strip (sd_text seg)) segs.

Definition txt_document (segs : list seg_data) : str := lines (txt_lines segs).

(** The rendered start and end of a segment. *)
Definition stamped (seg : seg_data) (stamps : str * str) : Prop :=
  format_timestamp (sd_start seg) = Ok (fst stamps) /\
  format_timestamp (sd_end seg) = Ok (snd stamps).

Definition rendered (x : float) : str :=
  match format_timestamp x with
  | Ok t => t
  | Raise _ => []
  end.

Definition stamps_of (seg : seg_data) : str * str :=
  (rendered (sd_start seg), rendered (sd_end seg)).

(** *** Runs *)

Definition to_seg_data (segment : segment) : seg_data :=
  {| sd_id := seg_id segment;
     sd_start := seg_start segment;
     sd_end := seg_end segment;
     sd_text := seg_text segment;
     sd_avg_logprob := seg_avg_logprob segment;
     sd_no_speech_prob := seg_no_speech_prob segment |}.

(** The probe reports the accelerated backend with half precision. *)
Definition cuda_available (p : probe) : bool :=
  match p with
  | Supported types =>
      (0 <? List.length types)%nat && existsb (str_eqb (lit "float16")) types
  | _ => false
  end.

Definition probe_failed (p : probe) : Prop :=
  match p with
  | Supported _ => False
  | _ => True
  end.

Definition with_probe (w : world) (p : probe) : world :=
  {| resolve := resolve w;
     path_exists := path_exists w;
     ctranslate2 := p;
     import_faster_whisper := import_faster_whisper w;
     WhisperModel := WhisperModel w;
     model_transcribe := model_transcribe w;
     elapsed_seconds := elapsed_seconds w;
     now_isoformat := now_isoformat w |}.

(** Device and compute type for a probe result. *)
Definition selected (available : bool) : str * str :=
  if available then (lit "cuda", lit "float16") else (lit "cpu", lit "int8").

Definition selected_model (w : world) : load_request :=
  {| lr_model := lit "large-v3";
     lr_device := fst (selected (cuda_available (ctranslate2 w)));
     lr_compute_type := snd (selected (cuda_available (ctranslate2 w))) |}.

Definition request_for (w : world) (input_file : str) (beam_size : Z) : transcribe_request :=
  {| tr_path := path_str (resolve w input_file);
     tr_language := lit "it";
     tr_beam_size := beam_size;
     tr_vad_filter := true;
     tr_min_silence_duration_ms := 500 |}.

(** The artifact beside the input with the given extension. *)
Definition artifact (input_path : path) (ext : string) : path :=
  joinpath (parent input_path) (stem input_path ++ lit "_trascrizione" ++ lit ext).

(** The times of the segment render: its progress line and its subtitle
    timing line can be formatted. *)
Definition timed (seg : segment) : Prop :=
  (exists t, format_timestamp_simple (seg_start seg) = Ok t) /\
  (exists t, format_timestamp (seg_start seg) = Ok t) /\
  (exists t, format_timestamp (seg_end seg) = Ok t).

(** The input exists, the engine loads and transcribes, and the
    generator ends normally, yielding timed segments whose stripped
    texts are encodable. *)
Definition completes (w : world) (input_file : str) (beam_size : Z)
    (gen : generator) (info : transcription_info) : Prop :=
  path_exists w (resolve w input_file) = true /\
  import_faster_whisper w = None /\
  WhisperModel w (selected_model w) = None /\
  model_transcribe w (selected_model w) (request_for w input_file beam_size)
    = Ok (gen, info) /\
  failure gen = None /\
  Forall timed (yielded gen) /\
  Forall (fun seg => utf8 (strip (seg_text seg)) = true) (yielded gen).

(** The metadata document of a completed run. *)
Definition metadata (rt : runtime) (w : world) (input_file : str) (beam_size : Z)
    (gen : generator) (info : transcription_info) : json :=
  json_data rt w (resolve w input_file)
    (fst (selected (cuda_available (ctranslate2 w))))
    (snd (selected (cuda_available (ctranslate2 w))))
    beam_size info
    (List.map to_seg_data (yielded gen))
    (List.map (fun seg => strip (seg_text seg)) (yielded gen)).

(** *** Samples *)

Definition sample_1024th : float := of_dyadic 1 (-10).
Definition sample_65_5 : float := of_dyadic 131 (-1).

(** Whole numbers of seconds past [2^53]: [3 * 2^56] and [11 * 2^60]. *)
Definition sample_3_2_56 : float := of_dyadic 3 56.
Definition sample_11_2_60 : float := of_dyadic 11 60.

Definition sample_segment : segment :=
  {| seg_id := 1; seg_start := sample_65_5; seg_end := of_Z 70;
     seg_text := lit " Hello world ";
     seg_avg_logprob := zero; seg_no_speech_prob := zero |}.

Definition sample_info : transcription_info :=
  {| language := lit "it"; language_probability := of_Z 1; duration := of_Z 70 |}.

Definition sample_world (p : probe) (present : bool) (segments : list segment) : world :=
  {| resolve := fun f => {| parent := lit "/media"; name := f |};
     path_exists := fun _ => present;
     ctranslate2 := p;
     import_faster_whisper := None;
     WhisperModel := fun _ => None;
     model_transcribe := fun _ _ =>
       Ok ({| yielded := segments; failure := None |}, sample_info);
     elapsed_seconds := of_Z 3;
     now_isoformat := lit "2024-01-01T00:00:00" |}.

Definition sample_runtime : runtime :=
  {| format_f1 := fun _ => lit "0.0";
     format_pct1 := fun _ => lit "0.0%";
     json_dumps := fun _ => lit "{}";
     json_dumps_utf8 := fun _ => eq_refl |}.

Definition nan_to_integer : exn :=
  {| exn_kind := ValueError; exn_text := lit "cannot convert float NaN to integer" |}.

(** A segment whose end time is not a number. *)
Definition sample_unfinished : seg_data :=
  {| sd_id := 1; sd_start := sample_65_5; sd_end := S754_nan;
     sd_text := lit " Hello world ";
     sd_avg_logprob := zero; sd_no_speech_prob := zero |}.

(** A segment whose stripped text, [a], newline, [b], has two lines. *)
Definition sample_two_lines : seg_data :=
  {| sd_id := 1; sd_start := sample_65_5; sd_end := of_Z 70;
     sd_text := lit " a" ++ nl ++ lit "b ";
     sd_avg_logprob := zero; sd_no_speech_prob := zero |}.

(** A segment whose text is the lone surrogate [U+D800]. *)
Definition sample_surrogate : seg_data :=
  {| sd_id := 2; sd_start := sample_65_5; sd_end := of_Z 70;
     sd_text := [55296%N];
     sd_avg_logprob := zero; sd_no_speech_prob := zero |}.

Definition import_error : exn :=
  {| exn_kind := ModuleNotFoundError; exn_text := lit "No module named 'ctranslate2'" |}.

(** * Proofs *)

(** ** Dyadic values and binary64 rounding *)
Section Dyadic.

Lemma pow2Q_pos e : (0 < 2 ^ e)%Q.
Proof. apply Qpower_0_lt. reflexivity. Qed.

Lemma pow2Q_add a b : (2 ^ (a + b) == 2 ^ a * 2 ^ b)%Q.
Proof. apply Qpower_plus. discriminate. Qed.

Lemma pow2Q_nonneg k : 0 <= k -> (2 ^ k == inject_Z (2 ^ k))%Q.
Proof. intros Hk. rewrite Zpower_Qpower by assumption. reflexivity. Qed.

Lemma dy_shift m e k : 0 <= k -> (dy (m * 2 ^ k) e == dy m (e + k))%Q.
Proof.
  intros Hk. unfold dy.
  rewrite pow2Q_add, inject_Z_mult, (pow2Q_nonneg k Hk). ring.
Qed.

Lemma dy_le a b e : (dy a e <= dy b e)%Q <-> a <= b.
Proof.
  unfold dy. pose proof (pow2Q_pos e) as Hp. split; intros H.
  - apply Qmult_le_r in H; [|assumption]. now rewrite <- Zle_Qle in H.
  - apply Qmult_le_r; [assumption|]. now rewrite <- Zle_Qle.
Qed.

Lemma dy_lt a b e : (dy a e < dy b e)%Q <-> a < b.
Proof.
  unfold dy. pose proof (pow2Q_pos e) as Hp. split; intros H.
  - apply Qmult_lt_r in H; [|assumption]. now rewrite <- Zlt_Qlt in H.
  - apply Qmult_lt_r; [assumption|]. now rewrite <- Zlt_Qlt.
Qed.

Lemma dy_inj a b e : (dy a e == dy b e)%Q -> a = b.
Proof.
  intros H. apply Z.le_antisymm; apply (dy_le _ _ e); rewrite H; apply Qle_refl.
Qed.

Lemma dy_0 m : (dy m 0 == inject_Z m)%Q.
Proof. unfold dy. simpl. ring. Qed.

Lemma dy_nonneg_exp m e : 0 <= e -> (dy m e == inject_Z (m * 2 ^ e))%Q.
Proof.
  intros He. rewrite <- dy_0, dy_shift by assumption. now rewrite Z.add_0_l.
Qed.

Lemma dy_eq_shift a ea b eb :
  eb <= ea -> (dy a ea == dy b eb)%Q -> b = a * 2 ^ (ea - eb).
Proof.
  intros Hle H. apply (dy_inj _ _ eb). rewrite <- H.
  rewrite dy_shift by lia. now replace (eb + (ea - eb)) with ea by lia.
Qed.

End Dyadic.

Section Digits.

Lemma digits2_pos_bounds p :
  2 ^ (Zpos (digits2_pos p) - 1) <= Zpos p < 2 ^ Zpos (digits2_pos p).
Proof.
  induction p as [p IH|p IH|]; cbn [digits2_pos].
  - rewrite Pos2Z.inj_succ.
    replace (Z.succ (Zpos (digits2_pos p)) - 1) with (Z.succ (Zpos (digits2_pos p) - 1)) by lia.
    rewrite !Z.pow_succ_r by lia. lia.
  - rewrite Pos2Z.inj_succ.
    replace (Z.succ (Zpos (digits2_pos p)) - 1) with (Z.succ (Zpos (digits2_pos p) - 1)) by lia.
    rewrite !Z.pow_succ_r by lia. lia.
  - simpl. lia.
Qed.

Lemma Zdigits2_bounds m :
  0 < m -> 2 ^ (Zdigits2 m - 1) <= m < 2 ^ Zdigits2 m.
Proof. destruct m; try lia. intros _. apply digits2_pos_bounds. Qed.

Lemma Zdigits2_pos m : 0 < m -> 0 < Zdigits2 m.
Proof. destruct m; simpl; lia. Qed.

Lemma Zdigits2_unique m d :
  2 ^ (d - 1) <= m < 2 ^ d -> 0 < d -> Zdigits2 m = d.
Proof.
  intros [Hl Hu] Hd.
  assert (Hm : 0 < m) by (pose proof (Z.pow_pos_nonneg 2 (d - 1)); lia).
  destruct (Zdigits2_bounds m Hm) as [Hl' Hu'].
  pose proof (Zdigits2_pos m Hm) as Hp.
  destruct (Z.lt_total (Zdigits2 m) d) as [H|[H|H]]; [exfalso| assumption | exfalso].
  - assert (2 ^ Zdigits2 m <= 2 ^ (d - 1)) by (apply Z.pow_le_mono_r; lia). lia.
  - assert (2 ^ d <= 2 ^ (Zdigits2 m - 1)) by (apply Z.pow_le_mono_r; lia). lia.
Qed.

Lemma Zdigits2_le m d : 0 <= d -> 0 <= m < 2 ^ d -> Zdigits2 m <= d.
Proof.
  intros Hd [Hl Hu]. destruct (Z.eq_dec m 0) as [->|Hne]; [simpl; lia|].
  destruct (Zdigits2_bounds m ltac:(lia)) as [Hl' _].
  destruct (Z_le_gt_dec (Zdigits2 m) d) as [H|H]; [assumption|exfalso].
  assert (2 ^ d <= 2 ^ (Zdigits2 m - 1)) by (apply Z.pow_le_mono_r; lia). lia.
Qed.

Lemma Zdigits2_shift m k :
  0 < m -> 0 <= k -> Zdigits2 (m * 2 ^ k) = Zdigits2 m + k.
Proof.
  intros Hm Hk. destruct (Zdigits2_bounds m Hm) as [Hl Hu].
  pose proof (Zdigits2_pos m Hm).
  apply Zdigits2_unique; [|lia].
  replace (Zdigits2 m + k - 1) with ((Zdigits2 m - 1) + k) by lia.
  rewrite !Z.pow_add_r by lia.
  pose proof (Z.pow_pos_nonneg 2 k). nia.
Qed.

End Digits.



Lemma fexp_64 e : fexp 53 1024 e = fexp64 e.
Proof. reflexivity. Qed.

Section Shr.

Lemma shr_1_spec m r s :
  0 <= m ->
  shr_1 (Build_shr_record m r s) = Build_shr_record (Z.div2 m) (Z.odd m) (r || s).
Proof. destruct m as [|[p|p|]|p]; try lia; reflexivity. Qed.

Lemma shr_inv_init m : 0 <= m -> shr_inv m 0 (Build_shr_record m false false).
Proof. intros Hm. split; [assumption|]. exists 0. simpl. lia. Qed.

Lemma shr_inv_step m j mrs :
  0 <= j -> shr_inv m j mrs -> shr_inv m (j + 1) (shr_1 mrs).
Proof.
  intros Hj [Hm (rem & Heq & Hrem & Hr & Hs)].
  destruct mrs as [mm r s]. cbn [shr_m shr_r shr_s] in *.
  rewrite shr_1_spec by assumption. cbn [shr_m shr_r shr_s].
  pose proof (Z.div2_odd mm) as Hd.
  pose proof (Z.pow_pos_nonneg 2 j ltac:(lia) Hj) as Hp.
  unfold shr_inv. cbn [shr_m shr_r shr_s].
  rewrite Z.pow_add_r, Z.pow_1_r by lia.
  split; [apply Z.div2_nonneg; assumption|].
  exists (rem + Z.b2z (Z.odd mm) * 2 ^ j).
  set (P := 2 ^ j) in *.
  destruct (Z.odd mm), r, s; cbn [Z.b2z orb] in *; repeat split; nia.
Qed.

Lemma shr_inv_iter p : forall m j mrs,
  0 <= j -> shr_inv m j mrs -> shr_inv m (j + Zpos p) (iter_pos shr_1 p mrs).
Proof.
  induction p as [p IH|p IH|]; intros m j mrs Hj H; cbn [iter_pos].
  - replace (j + Zpos p~1) with ((j + 1 + Zpos p) + Zpos p) by lia.
    apply IH; [lia|]. apply IH; [lia|]. now apply shr_inv_step.
  - replace (j + Zpos p~0) with ((j + Zpos p) + Zpos p) by lia.
    apply IH; [lia|]. now apply IH.
  - now apply shr_inv_step.
Qed.

Lemma shr_inv_mantissa m j mrs :
  0 <= j -> shr_inv m j mrs -> shr_m mrs = m / 2 ^ j.
Proof.
  intros Hj [_ (rem & Heq & Hrem & _)].
  apply Z.div_unique with rem; lia.
Qed.

Lemma shr_inv_exact m j mrs :
  0 <= j -> shr_inv m j mrs -> (2 ^ j | m) ->
  mrs = Build_shr_record (m / 2 ^ j) false false.
Proof.
  intros Hj H [k Hk]. pose proof (shr_inv_mantissa _ _ _ Hj H) as Hm.
  destruct H as [_ (rem & Heq & Hrem & Hr & Hs)].
  destruct mrs as [mm r s]. cbn [shr_m shr_r shr_s] in *.
  assert (rem = 0).
  { assert (Hz : rem = (k - mm) * 2 ^ j) by lia.
    destruct (Z.eq_dec (k - mm) 0) as [E|E]; [rewrite E in Hz; lia|exfalso].
    assert (0 < k - mm \/ k - mm < 0) as [G|G] by lia; nia. }
  subst rem. destruct r, s; try lia. now rewrite Hm.
Qed.

Lemma shr_inv_nearest m j mrs :
  0 <= j -> shr_inv m j mrs ->
  let m1 := round_nearest_even (shr_m mrs) (loc_of_shr_record mrs) in
  shr_m mrs <= m1 <= shr_m mrs + 1 /\
  Z.abs (2 * m - 2 * m1 * 2 ^ j) <= 2 ^ j.
Proof.
  intros Hj [Hm (rem & Heq & Hrem & Hr & Hs)].
  destruct mrs as [mm r s]. cbn [shr_m shr_r shr_s] in *.
  pose proof (Z.pow_pos_nonneg 2 j ltac:(lia) Hj) as Hp.
  set (P := 2 ^ j) in *.
  destruct r, s; cbn [loc_of_shr_record round_nearest_even].
  - split; lia.
  - destruct (Z.even mm); split; lia.
  - split; lia.
  - split; lia.
Qed.

End Shr.

Section Rounding.

Lemma shr_fexp_unfold m e :
  shr_fexp 53 1024 m e loc_Exact =
  shr (Build_shr_record m false false) e (fexp64 (Zdigits2 m + e) - e).
Proof. reflexivity. Qed.

Lemma shr_nonpos mrs e n : n <= 0 -> shr mrs e n = (mrs, e).
Proof. destruct n; try lia; reflexivity. Qed.

Lemma shr_pos mrs e n :
  0 < n -> shr mrs e n = (iter_pos shr_1 (Z.to_pos n) mrs, e + n).
Proof. destruct n; try lia; reflexivity. Qed.

(** A mantissa that already fits is left alone. *)
Lemma shr_fexp_fits m e :
  0 <= m < 2 ^ 53 -> -1074 <= e ->
  shr_fexp 53 1024 m e loc_Exact = (Build_shr_record m false false, e).
Proof.
  intros Hm He. rewrite shr_fexp_unfold. apply shr_nonpos.
  pose proof (Zdigits2_le m 53 ltac:(lia) Hm). unfold fexp64. lia.
Qed.

Lemma shr_fexp_carry e :
  -1074 <= e ->
  shr_fexp 53 1024 (2 ^ 53) e loc_Exact =
  (Build_shr_record (2 ^ 52) false false, e + 1).
Proof.
  intros He. rewrite shr_fexp_unfold.
  replace (Zdigits2 (2 ^ 53)) with 54 by reflexivity.
  replace (fexp64 (54 + e) - e) with 1 by (unfold fexp64; lia).
  reflexivity.
Qed.

(** The second normalisation step of [binary_round_aux], on a rounded
    mantissa of at most 54 bits, keeps the value. *)
Lemma round_finish m1 t :
  0 <= m1 <= 2 ^ 53 -> -1074 <= t -> t + 1 <= 971 ->
  let '(mrs, e) := shr_fexp 53 1024 m1 t loc_Exact in
  let r := match shr_m mrs with
           | Z0 => S754_zero false
           | Zpos m => if e <=? 1024 - 53 then S754_finite false m e
                       else S754_infinity false
           | Zneg _ => S754_nan
           end in
  nonneg_float r /\ (B2Q r == dy m1 t)%Q.
Proof.
  intros Hm Ht Hmax.
  destruct (Z.eq_dec m1 (2 ^ 53)) as [->|Hne].
  - rewrite shr_fexp_carry by assumption. cbn [shr_m].
    replace (2 ^ 52) with (Zpos (Z.to_pos (2 ^ 52))) at 1 by reflexivity.
    cbv iota. replace (t + 1 <=? 1024 - 53) with true by (symmetry; apply Z.leb_le; lia).
    split; [exact I|]. cbn [B2Q cond_Zopp].
    change (2 ^ 53) with (2 ^ 52 * 2 ^ 1). rewrite dy_shift by lia. reflexivity.
  - rewrite shr_fexp_fits by lia. cbn [shr_m].
    destruct m1 as [|p|p]; try lia.
    + split; [exact I|]. cbn [B2Q]. unfold dy. ring.
    + replace (t <=? 1024 - 53) with true by (symmetry; apply Z.leb_le; lia).
      split; [exact I|]. reflexivity.
Qed.

Lemma binary_round_aux_unfold s m e l :
  binary_round_aux 53 1024 s m e l =
  let '(mrs', e') := shr_fexp 53 1024 m e l in
  let '(mrs'', e'') :=
    shr_fexp 53 1024 (round_nearest_even (shr_m mrs') (loc_of_shr_record mrs')) e' loc_Exact in
  match shr_m mrs'' with
  | Z0 => S754_zero s
  | Zpos m => if e'' <=? 1024 - 53 then S754_finite s m e'' else S754_infinity s
  | Zneg _ => S754_nan
  end.
Proof. reflexivity. Qed.

(** Rounding an exact product (or quotient) whose mantissa needs no shift. *)
Lemma binary_round_aux_noshift m e :
  0 < m -> fexp64 (Zdigits2 m + e) <= e -> e <= 971 ->
  binary_round_aux 53 1024 false m e loc_Exact = S754_finite false (Z.to_pos m) e.
Proof.
  intros Hm Hn He. rewrite binary_round_aux_unfold.
  rewrite shr_fexp_unfold, shr_nonpos by lia.
  cbn [shr_m loc_of_shr_record round_nearest_even].
  rewrite shr_fexp_unfold, shr_nonpos by lia. cbn [shr_m].
  destruct m as [|p|p]; try lia.
  replace (e <=? 1024 - 53) with true by (symmetry; apply Z.leb_le; lia).
  reflexivity.
Qed.

(** Rounding to nearest: the result lies on the grid of spacing
    [2^(e+n)] and is at most half a grid step away from [m * 2^e]. *)
Lemma binary_round_aux_nearest m e n :
  0 < m -> n = fexp64 (Zdigits2 m + e) - e ->
  0 < n -> e + n + 1 <= 971 ->
  exists m1,
    0 <= m1 /\ Z.abs (2 * m - 2 * m1 * 2 ^ n) <= 2 ^ n /\
    nonneg_float (binary_round_aux 53 1024 false m e loc_Exact) /\
    (B2Q (binary_round_aux 53 1024 false m e loc_Exact) == dy m1 (e + n))%Q.
Proof.
  intros Hm En Hn Hmax.
  rewrite binary_round_aux_unfold, shr_fexp_unfold.
  rewrite <- En, shr_pos by assumption.
  pose proof (shr_inv_iter (Z.to_pos n) m 0 _ (Z.le_refl 0)
                (shr_inv_init m (Z.lt_le_incl _ _ Hm))) as Hinv.
  rewrite Z2Pos.id, Z.add_0_l in Hinv by assumption.
  set (mrs := iter_pos shr_1 (Z.to_pos n) _) in *.
  pose proof (shr_inv_mantissa m n mrs ltac:(lia) Hinv) as Hq.
  destruct (shr_inv_nearest m n mrs ltac:(lia) Hinv) as [Hb Hnear].
  set (m1 := round_nearest_even (shr_m mrs) (loc_of_shr_record mrs)) in *.
  assert (Hq53 : shr_m mrs < 2 ^ 53).
  { rewrite Hq. apply Z.div_lt_upper_bound; [apply Z.pow_pos_nonneg; lia|].
    destruct (Zdigits2_bounds m Hm) as [_ Hu].
    rewrite <- Z.pow_add_r by lia.
    eapply Z.lt_le_trans; [exact Hu|]. apply Z.pow_le_mono_r; [lia|].
    unfold fexp64 in En. lia. }
  assert (Hq0 : 0 <= shr_m mrs) by (destruct Hinv; assumption).
  assert (Ht : -1074 <= e + n) by (unfold fexp64 in En; lia).
  assert (Hm1 : 0 <= m1 <= 2 ^ 53) by lia.
  pose proof (round_finish m1 (e + n) Hm1 Ht Hmax) as Hfin.
  destruct (shr_fexp 53 1024 m1 (e + n) loc_Exact) as [mrs'' e''].
  destruct Hfin as [Hnn Hval].
  exists m1. repeat split; try assumption; lia.
Qed.

(** When the discarded bits are all zero the shift is exact. *)
Lemma binary_round_aux_exact m e n :
  0 < m -> n = fexp64 (Zdigits2 m + e) - e ->
  0 <= n -> (2 ^ n | m) -> e + n <= 971 ->
  binary_round_aux 53 1024 false m e loc_Exact =
  S754_finite false (Z.to_pos (m / 2 ^ n)) (e + n).
Proof.
  intros Hm En Hn Hdiv Hmax.
  destruct (Z.eq_dec n 0) as [E|E].
  { rewrite binary_round_aux_noshift; try assumption; try lia.
    rewrite E, Z.pow_0_r, Z.div_1_r, Z.add_0_r. reflexivity. }
  assert (Hn' : 0 < n) by lia.
  rewrite binary_round_aux_unfold, shr_fexp_unfold.
  rewrite <- En, shr_pos by assumption.
  pose proof (shr_inv_iter (Z.to_pos n) m 0 _ (Z.le_refl 0)
                (shr_inv_init m (Z.lt_le_incl _ _ Hm))) as Hinv.
  rewrite Z2Pos.id, Z.add_0_l in Hinv by assumption.
  rewrite (shr_inv_exact m n _ ltac:(lia) Hinv Hdiv).
  cbn [shr_m loc_of_shr_record round_nearest_even].
  pose proof (Z.pow_pos_nonneg 2 n ltac:(lia) ltac:(lia)) as Hp.
  destruct Hdiv as [k Hk].
  assert (Hq : m / 2 ^ n = k) by (rewrite Hk; apply Z.div_mul; lia).
  rewrite Hq. assert (Hk0 : 0 < k) by nia.
  assert (Hd : Zdigits2 m = Zdigits2 k + n).
  { rewrite Hk. apply Zdigits2_shift; lia. }
  rewrite shr_fexp_unfold, shr_nonpos.
  2:{ replace (Zdigits2 k + (e + n)) with (Zdigits2 m + e) by lia. lia. }
  cbn [shr_m]. destruct k as [|p|p]; try lia.
  replace (e + n <=? 1024 - 53) with true by (symmetry; apply Z.leb_le; lia).
  reflexivity.
Qed.

Lemma iter_xO_spec d : forall mx, Zpos (Pos.iter xO mx d) = Zpos mx * 2 ^ Zpos d.
Proof.
  induction d as [|d IH] using Pos.peano_ind; intros mx.
  - simpl. lia.
  - rewrite Pos.iter_succ, Pos2Z.inj_succ, Z.pow_succ_r by lia.
    rewrite Pos2Z.inj_xO, IH. lia.
Qed.

Lemma shl_align_spec mx ex ex' :
  let '(mz, ez) := shl_align mx ex ex' in
  ez = Z.min ex ex' /\ Zpos mz = Zpos mx * 2 ^ (ex - ez).
Proof.
  unfold shl_align. destruct (ex' - ex) as [|d|d] eqn:E.
  - split; [lia|]. replace (ex - ex) with 0 by lia. simpl; lia.
  - split; [lia|]. replace (ex - ex) with 0 by lia. simpl; lia.
  - split; [lia|]. replace (ex - ex') with (Zpos d) by lia.
    apply iter_xO_spec.
Qed.

End Rounding.


Section Normalize.

Lemma bounded_spec m e :
  bounded 53 1024 m e = true <->
  fexp64 (Zpos (digits2_pos m) + e) = e /\ e <= 971.
Proof.
  unfold bounded, canonical_mantissa. rewrite fexp_64, andb_true_iff, Z.eqb_eq, Z.leb_le.
  change (1024 - 53) with 971. tauto.
Qed.

Lemma bounded_range m e :
  bounded 53 1024 m e = true ->
  -1074 <= e <= 971 /\ 0 < Zpos m < 2 ^ 53.
Proof.
  intros H. apply bounded_spec in H. destruct H as [Hc He].
  pose proof (digits2_pos_bounds m) as [Hl Hu].
  unfold fexp64 in Hc. split; [lia|]. split; [lia|].
  eapply Z.lt_le_trans; [exact Hu|]. apply Z.pow_le_mono_r; lia.
Qed.

Lemma dy_pos m e : 0 < m -> (0 < dy m e)%Q.
Proof.
  intros Hm. unfold dy. apply Qmult_lt_0_compat; [|apply pow2Q_pos].
  change 0%Q with (inject_Z 0). now rewrite <- Zlt_Qlt.
Qed.

Lemma dy_digits a ea b eb :
  0 < a -> 0 < b -> (dy a ea == dy b eb)%Q ->
  Zdigits2 a + ea = Zdigits2 b + eb.
Proof.
  intros Ha Hb H. destruct (Z_le_gt_dec eb ea) as [L|L].
  - apply dy_eq_shift in H; [|assumption]. subst b.
    rewrite Zdigits2_shift by lia. lia.
  - symmetry in H. apply dy_eq_shift in H; [|lia]. subst a.
    rewrite Zdigits2_shift by lia. lia.
Qed.

Lemma binary_round_exact mp e M t :
  t = fexp64 (Zpos (digits2_pos mp) + e) -> t <= 971 ->
  (dy (Zpos mp) e == dy M t)%Q ->
  exists Mp, binary_round 53 1024 false mp e = S754_finite false Mp t /\
             Zpos Mp = M /\ bounded 53 1024 Mp t = true.
Proof.
  intros Et Ht Hv.
  assert (HM : 0 < M).
  { apply (proj1 (dy_lt 0 M t)). rewrite <- Hv.
    setoid_replace (dy 0 t) with 0%Q by (unfold dy; ring).
    apply dy_pos; lia. }
  pose proof (dy_digits (Zpos mp) e M t (Pos2Z.is_pos mp) HM Hv) as Hd. cbn [Zdigits2] in Hd.
  exists (Z.to_pos M). rewrite Z2Pos.id by assumption.
  assert (Hb : bounded 53 1024 (Z.to_pos M) t = true).
  { apply bounded_spec. split; [|assumption].
    change (Zpos (digits2_pos (Z.to_pos M))) with (Zdigits2 (Zpos (Z.to_pos M))).
    rewrite Z2Pos.id by assumption. rewrite <- Hd. now symmetry. }
  split; [|split; [reflexivity|assumption]].
  unfold binary_round. rewrite fexp_64, <- Et.
  pose proof (shl_align_spec mp e t) as Hs.
  destruct (shl_align mp e t) as [mz ez]. destruct Hs as [Hez Hmz].
  destruct (Z_lt_ge_dec t e) as [L|L].
  - replace (Z.min e t) with t in Hez by lia. subst ez.
    apply dy_eq_shift in Hv; [|lia].
    assert (E : Zpos mz = M) by (rewrite Hmz, Hv; reflexivity).
    rewrite E. apply binary_round_aux_noshift; try lia.
    rewrite <- Hd. lia.
  - replace (Z.min e t) with e in Hez by lia. subst ez.
    replace (e - e) with 0 in Hmz by lia. rewrite Z.pow_0_r, Z.mul_1_r in Hmz.
    rewrite Hmz. symmetry in Hv. apply dy_eq_shift in Hv; [|lia].
    rewrite (binary_round_aux_exact (Zpos mp) e (t - e)); try lia.
    + replace (e + (t - e)) with t by lia. f_equal. f_equal.
      rewrite Hv. apply Z.div_mul. apply Z.pow_nonzero; lia.
    + cbn [Zdigits2]. lia.
    + exists M. assumption.
Qed.

(** A positive dyadic value that fits in 53 bits above the smallest
    exponent is returned unchanged, in canonical form. *)
Lemma normalize_repr m e M0 e0 :
  0 < m -> (dy m e == dy M0 e0)%Q ->
  0 < M0 < 2 ^ 53 -> -1074 <= e0 -> Zdigits2 M0 + e0 <= 1024 ->
  exists mp t,
    binary_normalize 53 1024 m e false = S754_finite false mp t /\
    bounded 53 1024 mp t = true /\ (dy (Zpos mp) t == dy m e)%Q.
Proof.
  intros Hm Hv HM He0 Hmax.
  destruct m as [|p|p]; try lia. cbn [binary_normalize].
  pose proof (dy_digits (Zpos p) e M0 e0 Hm (proj1 HM) Hv) as Hd. cbn [Zdigits2] in Hd.
  pose proof (Zdigits2_le M0 53 ltac:(lia) ltac:(lia)) as Hd53.
  pose proof (Zdigits2_pos M0 ltac:(lia)) as Hd0.
  set (t := fexp64 (Zpos (digits2_pos p) + e)).
  assert (Ht : t <= e0) by (unfold t, fexp64; lia).
  assert (Ht' : t <= 971) by (unfold t, fexp64; lia).
  destruct (binary_round_exact p e (M0 * 2 ^ (e0 - t)) t eq_refl Ht') as (Mp & HR & HMp & Hb).
  { rewrite Hv, dy_shift by lia. now replace (t + (e0 - t)) with e0 by lia. }
  exists Mp, t. split; [assumption|]. split; [assumption|].
  rewrite HMp, Hv, dy_shift by lia. now replace (t + (e0 - t)) with e0 by lia.
Qed.

End Normalize.


Section Ops.

Lemma nn_wf x : nn x -> wf x.
Proof. destruct x as [[|]|[|]| |[|] m e]; simpl; tauto. Qed.

Lemma nn_zero_or_pos x :
  nn x ->
  x = S754_zero false \/
  exists m e, x = S754_finite false m e /\ bounded 53 1024 m e = true.
Proof.
  destruct x as [[|]|[|]| |[|] m e]; simpl; try tauto.
  intros H. right. now exists m, e.
Qed.

Lemma wf_cases x :
  wf x ->
  (exists b, x = S754_zero b) \/
  exists m e, x = S754_finite false m e /\ bounded 53 1024 m e = true.
Proof.
  destruct x as [b|[|]| |[|] m e]; simpl; try tauto.
  - intros _. left. now exists b.
  - intros H. right. now exists m, e.
Qed.

Lemma of_Z_spec q :
  0 < q < 2 ^ 53 ->
  exists mp,
    of_Z q = S754_finite false mp (Zdigits2 q - 53) /\
    Zpos mp = q * 2 ^ (53 - Zdigits2 q) /\
    bounded 53 1024 mp (Zdigits2 q - 53) = true.
Proof.
  intros Hq. destruct q as [|p|p]; try lia.
  pose proof (Zdigits2_pos (Zpos p) ltac:(lia)) as Hd0.
  pose proof (Zdigits2_le (Zpos p) 53 ltac:(lia) ltac:(lia)) as Hd53.
  unfold of_Z, of_dyadic. cbn [binary_normalize].
  apply binary_round_exact.
  - cbn [Zdigits2] in *. unfold fexp64. lia.
  - lia.
  - rewrite dy_shift by lia. now replace (Zdigits2 (Zpos p) - 53 + (53 - Zdigits2 (Zpos p))) with 0 by lia.
Qed.

Lemma of_Z_value q : 0 < q < 2 ^ 53 -> (B2Q (of_Z q) == inject_Z q)%Q.
Proof.
  intros Hq. destruct (of_Z_spec q Hq) as (mp & -> & Hm & _).
  pose proof (Zdigits2_le q 53 ltac:(lia) ltac:(lia)) as Hd53.
  cbn [B2Q cond_Zopp]. rewrite Hm, dy_shift by lia.
  replace (Zdigits2 q - 53 + (53 - Zdigits2 q)) with 0 by lia. apply dy_0.
Qed.

Lemma of_Z_nn q : 0 < q < 2 ^ 53 -> nn (of_Z q).
Proof. intros Hq. destruct (of_Z_spec q Hq) as (mp & -> & _ & Hb). exact Hb. Qed.

Lemma Qmod_comp a a' b b' :
  (a == a')%Q -> (b == b')%Q -> (Qmod a b == Qmod a' b')%Q.
Proof.
  intros Ha Hb. unfold Qmod.
  assert (Hq : (a / b == a' / b')%Q) by (rewrite Ha, Hb; reflexivity).
  rewrite (Qfloor_comp _ _ Hq), Ha, Hb. reflexivity.
Qed.

Lemma Qmod_dy ax ay ez :
  0 < ay -> (Qmod (dy ax ez) (dy ay ez) == dy (ax mod ay) ez)%Q.
Proof.
  intros Hay. unfold Qmod.
  assert (Hq : (dy ax ez / dy ay ez == inject_Z ax / inject_Z ay)%Q).
  { unfold dy. field. split.
    - intros H. unfold Qeq in H. simpl in H. lia.
    - pose proof (pow2Q_pos ez) as Hp. intros H. rewrite H in Hp. now apply Qlt_irrefl in Hp. }
  rewrite (Qfloor_comp _ _ Hq), <- Zdiv_Qdiv.
  rewrite Z.mod_eq by lia. unfold dy.
  unfold Z.sub. rewrite inject_Z_plus, inject_Z_opp, inject_Z_mult. ring.
Qed.

Lemma Qmod_0_l b : (~ b == 0)%Q -> (Qmod 0 b == 0)%Q.
Proof.
  intros Hb. unfold Qmod.
  assert (Hq : (0 / b == inject_Z 0)%Q) by (change (inject_Z 0) with 0%Q; field; assumption).
  rewrite (Qfloor_comp _ _ Hq), Qfloor_Z. change (inject_Z 0) with 0%Q. ring.
Qed.

Lemma shiftl_pow2 m k : 0 <= k -> Z.shiftl m k = m * 2 ^ k.
Proof. apply Z.shiftl_mul_pow2. Qed.

Lemma fmod_spec mx ex my ey :
  bounded 53 1024 mx ex = true -> bounded 53 1024 my ey = true ->
  let x := S754_finite false mx ex in
  let y := S754_finite false my ey in
  nn (fmod x y) /\ (B2Q (fmod x y) == Qmod (B2Q x) (B2Q y))%Q.
Proof.
  intros Hx Hy x y.
  destruct (bounded_range _ _ Hx) as [Hex Hmx].
  destruct (bounded_range _ _ Hy) as [Hey Hmy].
  unfold x, y. cbn [fmod B2Q cond_Zopp]. unfold prec, emax.
  set (ez := Z.min ex ey).
  rewrite !shiftl_pow2 by lia.
  set (ax := Zpos mx * 2 ^ (ex - ez)). set (ay := Zpos my * 2 ^ (ey - ez)).
  assert (Hax : (dy (Zpos mx) ex == dy ax ez)%Q).
  { unfold ax. rewrite dy_shift by lia. now replace (ez + (ex - ez)) with ex by lia. }
  assert (Hay : (dy (Zpos my) ey == dy ay ez)%Q).
  { unfold ay. rewrite dy_shift by lia. now replace (ez + (ey - ez)) with ey by lia. }
  assert (Hay0 : 0 < ay).
  { unfold ay. apply Z.mul_pos_pos; [lia|]. apply Z.pow_pos_nonneg; lia. }
  assert (Hax0 : 0 < ax).
  { unfold ax. apply Z.mul_pos_pos; [lia|]. apply Z.pow_pos_nonneg; lia. }
  rewrite (Qmod_comp _ _ _ _ Hax Hay), Qmod_dy by assumption.
  pose proof (Z.mod_pos_bound ax ay Hay0) as Hr.
  assert (Hrle : ax mod ay <= ax) by (apply Z.mod_le; lia).
  destruct (Z.eq_dec (ax mod ay) 0) as [E|E].
  - rewrite E. cbn [binary_normalize nn B2Q]. split; [exact I|]. unfold dy. ring.
  - assert (Hr53 : ax mod ay < 2 ^ 53).
    { destruct (Z_le_gt_dec ex ey).
      - assert (ax = Zpos mx); [|lia]. unfold ax, ez.
        rewrite Z.min_l, Z.sub_diag by lia. lia.
      - assert (ay = Zpos my); [|lia]. unfold ay, ez.
        rewrite Z.min_r, Z.sub_diag by lia. lia. }
    pose proof (Zdigits2_le (ax mod ay) 53 ltac:(lia) ltac:(lia)) as Hd.
    destruct (normalize_repr (ax mod ay) ez (ax mod ay) ez) as (mp & t & HR & Hb & Hv);
      try lia; try reflexivity.
    rewrite HR. cbn [nn B2Q cond_Zopp]. split; assumption.
Qed.

Lemma ltb_pos_zero m e : ltb (S754_finite false m e) zero = false.
Proof. reflexivity. Qed.

Lemma ltb_zero_zero b : ltb (S754_zero b) zero = false.
Proof. reflexivity. Qed.

(** The remainder operator on a non-negative dividend and a positive
    divisor is the exact remainder. *)
Lemma float_rem_spec s mw ew :
  wf s -> bounded 53 1024 mw ew = true ->
  exists r, float_rem s (S754_finite false mw ew) = Ok r /\ nn r /\
            (B2Q r == Qmod (B2Q s) (dy (Zpos mw) ew))%Q.
Proof.
  intros Hs Hw. unfold float_rem. cbn [is_zero].
  destruct (wf_cases s Hs) as [[b ->]|(m & e & -> & Hb)].
  - cbn [fmod is_zero negb copysign signbit zero]. eexists. split; [reflexivity|].
    split; [exact I|]. cbn [B2Q]. rewrite Qmod_0_l; [reflexivity|].
    pose proof (dy_pos (Zpos mw) ew ltac:(lia)) as Hp.
    intros H. rewrite H in Hp. now apply Qlt_irrefl in Hp.
  - destruct (fmod_spec m e mw ew Hb Hw) as [Hnn Hv]. cbv zeta in Hnn, Hv.
    destruct (nn_zero_or_pos _ Hnn) as [E|(mr & er & E & Hbr)].
    + rewrite E in *. cbn [is_zero negb copysign signbit zero].
      eexists. split; [reflexivity|]. split; [exact I|]. exact Hv.
    + rewrite E in *. cbn [is_zero negb]. rewrite !ltb_pos_zero. cbn [xorb].
      eexists. split; [reflexivity|]. split; [exact Hbr|]. exact Hv.
Qed.

End Ops.


Section Quotient.

Lemma sub_unfold mx ex my ey :
  sub (S754_finite false mx ex) (S754_finite false my ey) =
  binary_normalize 53 1024
    (Zpos mx * 2 ^ (ex - Z.min ex ey) - Zpos my * 2 ^ (ey - Z.min ex ey))
    (Z.min ex ey) false.
Proof.
  unfold sub, SFsub. cbn [cond_Zopp].
  pose proof (shl_align_spec mx ex (Z.min ex ey)) as Hx.
  pose proof (shl_align_spec my ey (Z.min ex ey)) as Hy.
  destruct (shl_align mx ex (Z.min ex ey)) as [ax e1].
  destruct (shl_align my ey (Z.min ex ey)) as [ay e2].
  cbn [fst]. destruct Hx as [E1 Hx], Hy as [E2 Hy].
  replace e1 with (Z.min ex ey) in Hx by lia.
  replace e2 with (Z.min ex ey) in Hy by lia.
  rewrite Hx, Hy. reflexivity.
Qed.

Lemma sub_value mx ex my ey :
  (dy (Zpos mx * 2 ^ (ex - Z.min ex ey) - Zpos my * 2 ^ (ey - Z.min ex ey)) (Z.min ex ey)
   == dy (Zpos mx) ex - dy (Zpos my) ey)%Q.
Proof.
  set (ez := Z.min ex ey).
  assert (Hx : (dy (Zpos mx) ex == dy (Zpos mx * 2 ^ (ex - ez)) ez)%Q).
  { rewrite dy_shift by lia. now replace (ez + (ex - ez)) with ex by lia. }
  assert (Hy : (dy (Zpos my) ey == dy (Zpos my * 2 ^ (ey - ez)) ez)%Q).
  { rewrite dy_shift by lia. now replace (ez + (ey - ez)) with ey by lia. }
  rewrite Hx, Hy. unfold dy, Z.sub.
  rewrite inject_Z_plus, inject_Z_opp. ring.
Qed.

Lemma dy_zero_inv m e : (dy m e == 0)%Q -> m = 0.
Proof.
  intros H. apply (dy_inj m 0 e). rewrite H. unfold dy. ring.
Qed.

(** Subtraction of equal values is a positive zero. *)
Lemma sub_same mx ex my ey :
  (dy (Zpos mx) ex == dy (Zpos my) ey)%Q ->
  sub (S754_finite false mx ex) (S754_finite false my ey) = S754_zero false.
Proof.
  intros H. rewrite sub_unfold.
  pose proof (sub_value mx ex my ey) as Hv. rewrite H in Hv.
  assert (Hz : (dy (Zpos my) ey - dy (Zpos my) ey == 0)%Q) by ring.
  rewrite Hz in Hv. apply dy_zero_inv in Hv. rewrite Hv. reflexivity.
Qed.

(** Subtraction is exact when the difference is representable. *)
Lemma sub_exact mx ex my ey M0 e0 :
  (dy (Zpos mx) ex - dy (Zpos my) ey == dy M0 e0)%Q ->
  0 < M0 < 2 ^ 53 -> -1074 <= e0 -> Zdigits2 M0 + e0 <= 1024 ->
  exists mp t,
    sub (S754_finite false mx ex) (S754_finite false my ey) = S754_finite false mp t /\
    bounded 53 1024 mp t = true /\ (dy (Zpos mp) t == dy M0 e0)%Q.
Proof.
  intros H HM He Hmax. rewrite sub_unfold.
  pose proof (sub_value mx ex my ey) as Hv. rewrite H in Hv.
  set (d := Zpos mx * 2 ^ (ex - Z.min ex ey) - Zpos my * 2 ^ (ey - Z.min ex ey)) in *.
  assert (Hd : 0 < d).
  { apply (proj1 (dy_lt 0 d (Z.min ex ey))). rewrite Hv.
    setoid_replace (dy 0 (Z.min ex ey)) with 0%Q by (unfold dy; ring).
    apply dy_pos; lia. }
  destruct (normalize_repr d (Z.min ex ey) M0 e0 Hd Hv HM He Hmax) as (mp & t & HR & Hb & Hval).
  exists mp, t. split; [assumption|]. split; [assumption|]. now rewrite Hval.
Qed.

Lemma div_eucl_div_mod a b : Z.div_eucl a b = (a / b, a mod b).
Proof. unfold Z.div, Z.modulo. now destruct (Z.div_eucl a b). Qed.

Lemma new_location_0 m : new_location m 0 = loc_Exact.
Proof. unfold new_location. destruct (Z.even m); reflexivity. Qed.

(** Division is exact when the quotient is an integer below [2^53]. *)
Lemma div_exact mx ex mw ew q :
  0 < q < 2 ^ 53 ->
  (dy (Zpos mx) ex == inject_Z q * dy (Zpos mw) ew)%Q ->
  div (S754_finite false mx ex) (S754_finite false mw ew) = of_Z q.
Proof.
  intros Hq Hv.
  assert (Hv' : (dy (Zpos mx) ex == dy (q * Zpos mw) ew)%Q).
  { rewrite Hv. unfold dy. rewrite inject_Z_mult. ring. }
  pose proof (Zdigits2_pos q ltac:(lia)) as Hdq0.
  pose proof (Zdigits2_le q 53 ltac:(lia) ltac:(lia)) as Hdq53.
  destruct (Zdigits2_bounds q ltac:(lia)) as [_ Hqu].
  destruct (Zdigits2_bounds (Zpos mw) ltac:(lia)) as [_ Hwu].
  pose proof (Zdigits2_pos (Zpos mw) ltac:(lia)) as Hdw0.
  assert (Hprod : Zdigits2 (q * Zpos mw) <= Zdigits2 q + Zdigits2 (Zpos mw)).
  { apply Zdigits2_le; [lia|]. split; [nia|].
    rewrite Z.pow_add_r by lia. nia. }
  pose proof (dy_digits (Zpos mx) ex (q * Zpos mw) ew ltac:(lia) ltac:(nia) Hv') as Hdig.
  unfold div, SFdiv, SFdiv_core_binary, prec, emax. rewrite fexp_64. cbn [xorb].
  set (e' := Z.min (fexp64 (Zdigits2 (Zpos mx) + ex - (Zdigits2 (Zpos mw) + ew))) (ex - ew)).
  assert (He' : e' <= Zdigits2 q - 53).
  { unfold e', fexp64. clear - Hdq0 Hprod Hdig. lia. }
  assert (Hs : 0 <= ex - ew - e') by (unfold e'; lia).
  set (m' := match ex - ew - e' with
             | 0 => Zpos mx
             | Zpos _ => Z.shiftl (Zpos mx) (ex - ew - e')
             | Zneg _ => 0
             end).
  assert (Hm' : m' = Zpos mx * 2 ^ (ex - ew - e')).
  { unfold m'. destruct (ex - ew - e') as [|p|p] eqn:E; try lia.
    rewrite <- E. apply Z.shiftl_mul_pow2. lia. }
  assert (Hm'' : m' = q * 2 ^ (- e') * Zpos mw).
  { apply (dy_inj _ _ (ew + e')).
    rewrite Hm', dy_shift by lia.
    replace (ew + e' + (ex - ew - e')) with ex by lia. rewrite Hv'.
    replace (q * 2 ^ (- e') * Zpos mw) with (q * Zpos mw * 2 ^ (- e')) by ring.
    rewrite dy_shift by lia. now replace (ew + e' + - e') with ew by lia. }
  rewrite div_eucl_div_mod, Hm''.
  rewrite Z.div_mul, Z.mod_mul by lia. rewrite new_location_0.
  pose proof (Z.pow_pos_nonneg 2 (- e') ltac:(lia) ltac:(lia)) as Hp.
  assert (H1 : 0 < q * 2 ^ (- e')) by nia.
  assert (H2 : Zdigits2 q - 53 - e' = fexp64 (Zdigits2 (q * 2 ^ (- e')) + e') - e').
  { rewrite Zdigits2_shift by lia. unfold fexp64. lia. }
  assert (H3 : (2 ^ (Zdigits2 q - 53 - e') | q * 2 ^ (- e'))).
  { exists (q * 2 ^ (53 - Zdigits2 q)).
    replace (- e') with ((53 - Zdigits2 q) + (Zdigits2 q - 53 - e')) at 1 by lia.
    rewrite Z.pow_add_r by lia. ring. }
  rewrite (binary_round_aux_exact _ _ (Zdigits2 q - 53 - e') H1 H2 ltac:(lia) H3 ltac:(lia)).
  destruct (of_Z_spec q Hq) as (mp & -> & Hmp & _).
  replace (e' + (Zdigits2 q - 53 - e')) with (Zdigits2 q - 53) by lia.
  f_equal.
  replace (- e') with ((53 - Zdigits2 q) + (Zdigits2 q - 53 - e')) by lia.
  rewrite Z.pow_add_r, Z.mul_assoc, Z.div_mul, <- Hmp by (try apply Z.pow_nonzero; lia).
  reflexivity.
Qed.

Lemma floor_of_Z q : 0 < q < 2 ^ 53 -> floor (of_Z q) = of_Z q.
Proof.
  intros Hq. destruct (of_Z_spec q Hq) as (mp & E & Hmp & _).
  pose proof (Zdigits2_le q 53 ltac:(lia) ltac:(lia)) as Hd53.
  rewrite E at 1. cbn [floor].
  destruct (0 <=? Zdigits2 q - 53) eqn:L; [symmetry; exact E|].
  apply Z.leb_gt in L. cbn [cond_Zopp].
  rewrite Z.shiftr_div_pow2, Hmp by lia.
  replace (- (Zdigits2 q - 53)) with (53 - Zdigits2 q) by lia.
  rewrite Z.div_mul by (apply Z.pow_nonzero; lia). reflexivity.
Qed.

Lemma trunc_of_Z q : 0 < q < 2 ^ 53 -> trunc (of_Z q) = Some q.
Proof.
  intros Hq. destruct (of_Z_spec q Hq) as (mp & E & Hmp & _).
  pose proof (Zdigits2_le q 53 ltac:(lia) ltac:(lia)) as Hd53.
  rewrite E. cbn [trunc cond_Zopp]. f_equal.
  destruct (Z.eq_dec (Zdigits2 q) 53) as [D|D].
  - rewrite D in *. simpl. simpl in Hmp. lia.
  - replace (Zdigits2 q - 53) with (- (53 - Zdigits2 q)) by lia.
    rewrite Z.shiftl_opp_r, Z.shiftr_div_pow2, Hmp by lia.
    apply Z.div_mul. apply Z.pow_nonzero; lia.
Qed.

Lemma sub_of_Z_same q : 0 < q < 2 ^ 53 -> sub (of_Z q) (of_Z q) = S754_zero false.
Proof.
  intros Hq. destruct (of_Z_spec q Hq) as (mp & -> & _ & _).
  apply sub_same. reflexivity.
Qed.

End Quotient.


Section FloorDiv.

Lemma B2Q_nonneg x : wf x -> (0 <= B2Q x)%Q.
Proof.
  intros H. destruct (wf_cases x H) as [[b ->]|(m & e & -> & _)].
  - apply Qle_refl.
  - apply Qlt_le_weak. cbn [B2Q cond_Zopp]. apply dy_pos. lia.
Qed.

Lemma inject_Z_pos z : 0 < z -> (0 < inject_Z z)%Q.
Proof. intros H. change 0%Q with (inject_Z 0). now rewrite <- Zlt_Qlt. Qed.

Lemma Qfloor_div_bounds x w :
  (0 <= x)%Q -> 0 < w ->
  0 <= Qfloor (x / inject_Z w) /\
  (inject_Z (w * Qfloor (x / inject_Z w)) <= x)%Q.
Proof.
  intros Hx Hw. pose proof (inject_Z_pos w Hw) as HW. split.
  - change 0 with (Qfloor 0). apply Qfloor_resp_le.
    apply Qle_shift_div_l; [assumption|]. now rewrite Qmult_0_l.
  - rewrite inject_Z_mult.
    assert (E : (x == inject_Z w * (x / inject_Z w))%Q).
    { field. intros H. rewrite H in HW. now apply Qlt_irrefl in HW. }
    rewrite E at 2. apply Qmult_le_l; [assumption|]. apply Qfloor_le.
Qed.

Lemma ltb_half_zero : ltb (of_dyadic 1 (-1)) (S754_zero false) = false.
Proof. reflexivity. Qed.

Lemma Qfloor_0_div w : Qfloor (0 / inject_Z w) = 0.
Proof. unfold Qdiv. rewrite (Qfloor_comp _ 0%Q); [reflexivity|]. ring. Qed.

Lemma float_floor_div_eval vx wx md dv :
  is_zero wx = false -> fmod vx wx = md ->
  negb (is_zero md) && xorb (ltb wx zero) (ltb md zero) = false ->
  div (sub vx md) wx = dv ->
  float_floor_div vx wx =
  if negb (is_zero dv) then
    if ltb (of_dyadic 1 (-1)) (sub dv (floor dv))
    then Ok (add (floor dv) (of_Z 1)) else Ok (floor dv)
  else Ok (copysign zero (div vx wx)).
Proof.
  intros Hz Hmd Hc Hdv. unfold float_floor_div.
  rewrite Hz, Hmd, Hc, Hdv. reflexivity.
Qed.

Lemma nn_no_adjust mw ew md :
  nn md ->
  negb (is_zero md) && xorb (ltb (S754_finite false mw ew) zero) (ltb md zero) = false.
Proof.
  intros H. destruct (nn_zero_or_pos _ H) as [->|(mr & er & -> & _)]; reflexivity.
Qed.

(** Floor division of a non-negative value below [2^53] by a positive
    integer constant yields the exact floored quotient. *)
Lemma float_floor_div_spec s w :
  wf s -> (B2Q s < inject_Z (2 ^ 53))%Q -> 0 < w < 2 ^ 53 ->
  exists q, float_floor_div s (of_Z w) = Ok q /\
            trunc q = Some (Qfloor (B2Q s / inject_Z w)).
Proof.
  intros Hs Hlt Hw.
  pose proof (of_Z_value w Hw) as HWv.
  destruct (of_Z_spec w Hw) as (mw & EW & HmW & HbW). rewrite EW in *.
  cbn [B2Q cond_Zopp] in HWv. set (ew := Zdigits2 w - 53) in *.
  destruct (wf_cases s Hs) as [[b ->]|(m & e & -> & Hb)].
  - cbn [B2Q]. rewrite Qfloor_0_div.
    destruct b; cbn; eexists; split; reflexivity.
  - destruct (fmod_spec m e mw _ Hb HbW) as [Hnn Hv]. cbv zeta in Hnn, Hv.
    set (qz := Qfloor (B2Q (S754_finite false m e) / inject_Z w)).
    destruct (Qfloor_div_bounds (B2Q (S754_finite false m e)) w
                (B2Q_nonneg _ Hs) ltac:(lia)) as [Hq0 Hqle].
    fold qz in Hq0, Hqle.
    cbn [B2Q cond_Zopp] in Hv, Hqle, Hlt.
    assert (Hmd : (B2Q (fmod (S754_finite false m e) (S754_finite false mw ew))
                   == dy (Zpos m) e - inject_Z (w * qz))%Q).
    { rewrite Hv.
      rewrite (Qmod_comp _ (dy (Zpos m) e) _ (inject_Z w)); [|reflexivity|exact HWv].
      unfold Qmod. fold qz. rewrite inject_Z_mult. reflexivity. }
    assert (Hxpos : (0 < dy (Zpos m) e)%Q) by (apply dy_pos; lia).
    assert (Hwq : w * qz < 2 ^ 53).
    { rewrite Zlt_Qlt. eapply Qle_lt_trans; eassumption. }
    assert (Hqz53 : qz < 2 ^ 53) by nia.
    pose proof (nn_no_adjust mw ew _ Hnn) as Hcond.
    destruct (Z.eq_dec qz 0) as [Ez|Ez].
    + (* the quotient is zero *)
      rewrite Ez, Z.mul_0_r in Hmd.
      destruct (nn_zero_or_pos _ Hnn) as [E|(mr & er & E & Hbr)].
      { rewrite E in Hmd. cbn [B2Q] in Hmd.
        assert (Hc : (dy (Zpos m) e == 0)%Q).
        { change (inject_Z 0) with 0%Q in Hmd. clear - Hmd. lra. }
        rewrite Hc in Hxpos. now apply Qlt_irrefl in Hxpos. }
      rewrite E in Hmd, Hcond. cbn [B2Q cond_Zopp] in Hmd.
      rewrite (float_floor_div_eval (S754_finite false m e) (S754_finite false mw ew)
                 _ (S754_zero false) eq_refl E Hcond).
      * cbn [is_zero negb]. eexists. split; [reflexivity|]. rewrite Ez. reflexivity.
      * rewrite (sub_same m e mr er); [reflexivity|].
        change (inject_Z 0) with 0%Q in Hmd. clear - Hmd. lra.
    + (* the quotient is a positive integer *)
      assert (Hqpos : 0 < qz) by lia.
      assert (Hdiv : div (sub (S754_finite false m e)
                            (fmod (S754_finite false m e) (S754_finite false mw ew)))
                         (S754_finite false mw ew) = of_Z qz).
      { destruct (nn_zero_or_pos _ Hnn) as [E|(mr & er & E & Hbr)].
        - rewrite E in *. cbn [B2Q] in Hmd.
          replace (sub (S754_finite false m e) (S754_zero false))
            with (S754_finite false m e) by reflexivity.
          apply div_exact; [lia|].
          rewrite HWv, <- inject_Z_mult, (Z.mul_comm qz w). clear - Hmd. lra.
        - rewrite E in *. cbn [B2Q cond_Zopp] in Hmd.
          destruct (sub_exact m e mr er (w * qz) 0) as (mp & t & HR & HbR & HvR);
            try lia.
          { rewrite dy_0. clear - Hmd. lra. }
          { pose proof (Zdigits2_le (w * qz) 53 ltac:(lia) ltac:(nia)). lia. }
          rewrite HR. apply div_exact; [lia|].
          rewrite HvR, dy_0, HWv, inject_Z_mult. ring. }
      rewrite (float_floor_div_eval (S754_finite false m e) (S754_finite false mw ew)
                 _ _ eq_refl eq_refl Hcond Hdiv).
      destruct (of_Z_spec qz ltac:(lia)) as (mq & Eq & _ & _).
      assert (Hnz : is_zero (of_Z qz) = false) by (rewrite Eq; reflexivity).
      rewrite Hnz. cbn [negb].
      rewrite floor_of_Z, sub_of_Z_same, ltb_half_zero by lia.
      eexists. split; [reflexivity|]. apply trunc_of_Z. lia.
Qed.

End FloorDiv.


Section Millis.

Lemma pow2Q_opp e : (2 ^ e * 2 ^ (- e) == 1)%Q.
Proof. rewrite <- pow2Q_add. now replace (e + - e) with 0 by lia. Qed.

Lemma dy_as_div m e : e <= 0 -> (dy m e == inject_Z m / inject_Z (2 ^ (- e)))%Q.
Proof.
  intros He. rewrite <- pow2Q_nonneg by lia. unfold dy.
  pose proof (pow2Q_pos (- e)) as Hp. pose proof (pow2Q_opp e) as Ho.
  apply (Qmult_inj_r _ _ (2 ^ (- e))%Q).
  - intros H. rewrite H in Hp. now apply Qlt_irrefl in Hp.
  - rewrite <- Qmult_assoc, Ho. field.
    intros H. rewrite H in Hp. now apply Qlt_irrefl in Hp.
Qed.

Lemma Qfloor_dy m e : e <= 0 -> Qfloor (dy m e) = m / 2 ^ (- e).
Proof.
  intros He. rewrite (Qfloor_comp _ _ (dy_as_div m e He)). symmetry. apply Zdiv_Qdiv.
Qed.

Lemma trunc_nonneg x : nonneg_float x -> trunc x = Some (Qfloor (B2Q x)).
Proof.
  destruct x as [[|]|[|]| |[|] m e]; cbn [nonneg_float trunc B2Q cond_Zopp];
    try tauto; intros _; try reflexivity.
  f_equal. destruct (Z_le_gt_dec 0 e) as [L|L].
  - rewrite (Qfloor_comp _ _ (dy_nonneg_exp _ _ L)), Qfloor_Z.
    apply Z.shiftl_mul_pow2. assumption.
  - rewrite Qfloor_dy by lia.
    replace e with (- - e) at 1 by lia.
    rewrite Z.shiftl_opp_r. apply Z.shiftr_div_pow2. lia.
Qed.

(** Arithmetic core: a mantissa within half a grid step of the exact
    product [mf * 1000 / F], where [mf < F], truncates to a value in
    [0, 999] at most one above the exact floor. *)
Lemma millis_bounds mf F T N m1 :
  0 < mf < F -> F * 2 ^ 43 = T * N -> 2 ^ 43 <= T -> 0 < N <= 2 ^ 53 -> 0 <= m1 ->
  Z.abs (2 * (mf * (1000 * 2 ^ 43)) - 2 * m1 * N) <= N ->
  1000 * mf / F <= m1 / T <= 999 /\ (m1 / T - 1) * F < 1000 * mf /\
  2 ^ 44 * (m1 / T * F) <= 2 ^ 44 * (1000 * mf) + F.
Proof.
  intros Hmf HF HT43 HN Hm1 Hnear.
  change (2 ^ 44) with (2 * 2 ^ 43).
  set (c := 2 ^ 43) in *. assert (Hc : c = 8796093022208) by reflexivity.
  assert (HT : 1 <= T) by lia.
  assert (HN53 : N <= 1024 * c) by (rewrite Hc; simpl in HN; lia).
  assert (Hc0 : 0 < c) by lia. clearbody c. clear Hc.
  pose proof (Z.mul_div_le (1000 * mf) F ltac:(lia)) as Hk0.
  pose proof (Z.mul_div_le m1 T ltac:(lia)) as Hk.
  set (k0 := 1000 * mf / F) in *. set (k := m1 / T) in *.
  assert (H1 : k0 * T <= m1).
  { assert (2 * (k0 * T) * N <= 2 * m1 * N + N).
    { replace (2 * (k0 * T) * N) with (2 * (F * k0) * c) by nia. nia. }
    nia. }
  assert (H2 : m1 < 1000 * T).
  { destruct (Z_lt_ge_dec m1 (1000 * T)) as [L|L]; [assumption|exfalso].
    assert (2000 * (F * c) <= 2 * m1 * N) by (rewrite HF; nia).
    assert (mf * (1000 * c) <= (F - 1) * (1000 * c)) by nia.
    lia. }
  assert (H3 : (k - 1) * F < 1000 * mf).
  { assert (2 * (T * k) * N <= 2 * (mf * (1000 * c)) + N) by nia.
    assert (2 * (k * (F * c)) <= 2 * (mf * (1000 * c)) + N) by (rewrite HF; nia).
    assert (N < 2 * (F * c)) by (rewrite HF; nia).
    nia. }
  assert (H4 : 2 * c * (k * F) <= 2 * c * (1000 * mf) + F).
  { assert (2 * (T * k) * N <= 2 * (mf * (1000 * c)) + N) by nia.
    assert (2 * (k * (F * c)) <= 2 * (mf * (1000 * c)) + N) by (rewrite HF; nia).
    assert (N * c <= F * c) by (rewrite HF; nia).
    assert (N <= F) by nia.
    nia. }
  split; [split|split; assumption].
  - apply Z.div_le_lower_bound; lia.
  - assert (k < 1000); [|lia]. apply Z.div_lt_upper_bound; lia.
Qed.

Lemma of_Z_1000 : of_Z 1000 = S754_finite false 8796093022208000 (-43).
Proof. reflexivity. Qed.

(** The product of a fraction below one by 1000, truncated. *)
Lemma mul_1000_spec r :
  nn r -> (B2Q r < 1)%Q ->
  exists k,
    trunc (mul r (of_Z 1000)) = Some k /\
    nonneg_float (mul r (of_Z 1000)) /\
    Qfloor (B2Q r * 1000) <= k <= 999 /\
    (inject_Z k - 1 < B2Q r * 1000)%Q /\
    (inject_Z k <= B2Q r * 1000 + (1 # 17592186044416))%Q.
Proof.
  intros Hnn Hlt. rewrite of_Z_1000.
  destruct (nn_zero_or_pos _ Hnn) as [->|(mf & ef & -> & Hb)].
  - exists 0. cbn. repeat split; try lia; try reflexivity. discriminate.
  - cbn [B2Q cond_Zopp] in *.
    destruct (bounded_range _ _ Hb) as [Hef Hmf].
    assert (Hef0 : ef < 0).
    { destruct (Z_lt_ge_dec ef 0) as [L|L]; [assumption|exfalso].
      rewrite (dy_nonneg_exp (Zpos mf) ef ltac:(lia)) in Hlt.
      change 1%Q with (inject_Z 1) in Hlt. rewrite <- Zlt_Qlt in Hlt.
      pose proof (Z.pow_pos_nonneg 2 ef ltac:(lia) ltac:(lia)). nia. }
    set (F := 2 ^ (- ef)).
    assert (HF0 : 0 < F) by (apply Z.pow_pos_nonneg; lia).
    assert (H1F : (1 == dy F ef)%Q).
    { unfold F. rewrite <- (Z.mul_1_l (2 ^ (- ef))), dy_shift by lia.
      replace (ef + - ef) with 0 by lia. rewrite dy_0. reflexivity. }
    assert (HmfF : Zpos mf < F).
    { apply (proj1 (dy_lt _ _ ef)). now rewrite <- H1F. }
    assert (HP : (dy (Zpos mf) ef * 1000 == dy (1000 * Zpos mf) ef)%Q).
    { unfold dy. rewrite inject_Z_mult. change (inject_Z 1000) with 1000%Q. ring. }
    assert (Hfl : Qfloor (dy (Zpos mf) ef * 1000) = 1000 * Zpos mf / F).
    { rewrite (Qfloor_comp _ _ HP). apply Qfloor_dy. lia. }
    assert (Hlow : forall k, (k - 1) * F < 1000 * Zpos mf ->
                   (inject_Z k - 1 < dy (Zpos mf) ef * 1000)%Q).
    { intros k Hk. rewrite HP.
      assert (E : (inject_Z k - 1 == dy ((k - 1) * F) ef)%Q).
      { unfold F. rewrite dy_shift by lia. replace (ef + - ef) with 0 by lia.
        rewrite dy_0. unfold Z.sub. rewrite inject_Z_plus. reflexivity. }
      rewrite E. now apply dy_lt. }
    assert (Hhigh : forall k, 2 ^ 44 * (k * F) <= 2 ^ 44 * (1000 * Zpos mf) + F ->
                    (inject_Z k <= dy (Zpos mf) ef * 1000 + (1 # 17592186044416))%Q).
    { intros k Hk. rewrite HP.
      assert (E1 : (inject_Z k == dy (2 ^ 44 * (k * F)) (ef - 44))%Q).
      { rewrite (Z.mul_comm (2 ^ 44)), dy_shift by lia.
        unfold F. rewrite dy_shift by lia.
        replace (ef - 44 + 44 + - ef) with 0 by lia. now rewrite dy_0. }
      assert (E2 : (dy (1000 * Zpos mf) ef == dy (2 ^ 44 * (1000 * Zpos mf)) (ef - 44))%Q).
      { rewrite (Z.mul_comm (2 ^ 44)), dy_shift by lia.
        now replace (ef - 44 + 44) with ef by lia. }
      assert (E3 : ((1 # 17592186044416) == dy F (ef - 44))%Q).
      { unfold F. rewrite <- (Z.mul_1_l (2 ^ (- ef))), dy_shift by lia.
        replace (ef - 44 + - ef) with (-44) by lia. reflexivity. }
      rewrite E1, E2, E3.
      assert (E4 : (dy (2 ^ 44 * (1000 * Zpos mf)) (ef - 44) + dy F (ef - 44)
                    == dy (2 ^ 44 * (1000 * Zpos mf) + F) (ef - 44))%Q).
      { unfold dy. rewrite inject_Z_plus. ring. }
      rewrite E4. now apply dy_le. }
    rewrite Hfl.
    unfold mul, SFmul, prec, emax. cbn [xorb].
    set (pm := Zpos (mf * 8796093022208000)). set (pe := ef + -43).
    assert (Hpm : pm = Zpos mf * (1000 * 2 ^ 43)) by (unfold pm; rewrite Pos2Z.inj_mul; reflexivity).
    assert (Hd : Zdigits2 pm <= Zdigits2 (Zpos mf) + 53).
    { pose proof (Zdigits2_pos (Zpos mf) ltac:(lia)).
      destruct (Zdigits2_bounds (Zpos mf) ltac:(lia)) as [_ Hu].
      apply Zdigits2_le; [lia|]. rewrite Hpm, Z.pow_add_r by lia.
      change (1000 * 2 ^ 43) with 8796093022208000. change (2 ^ 53) with 9007199254740992. nia. }
    assert (Hdmf : Zdigits2 (Zpos mf) <= - ef).
    { apply Zdigits2_le; lia. }
    pose proof (Zdigits2_le (Zpos mf) 53 ltac:(lia) ltac:(lia)) as Hdmf53.
    set (n := fexp64 (Zdigits2 pm + pe) - pe).
    destruct (Z_le_gt_dec n 0) as [Ln|Ln].
    + (* the product is representable as it is *)
      rewrite binary_round_aux_noshift by (unfold n, pe in *; lia).
      exists (1000 * Zpos mf / F).
      assert (E : trunc (S754_finite false (Z.to_pos pm) pe) = Some (1000 * Zpos mf / F)).
      { rewrite trunc_nonneg by exact I. f_equal. cbn [B2Q cond_Zopp].
        rewrite <- Hfl. apply Qfloor_comp. rewrite HP. unfold pm, pe.
        rewrite Z2Pos.id by lia. fold pm. rewrite Hpm.
        replace (Zpos mf * (1000 * 2 ^ 43)) with (1000 * Zpos mf * 2 ^ 43) by ring.
        rewrite dy_shift by lia. now replace (ef + -43 + 43) with ef by lia. }
      split; [exact E|]. split; [exact I|].
      pose proof (Z.mul_div_le (1000 * Zpos mf) F HF0).
      assert (1000 * Zpos mf / F < 1000) by (apply Z.div_lt_upper_bound; lia).
      split; [lia|]. split; [apply Hlow; nia|].
      apply Hhigh. pose proof (Z.pow_pos_nonneg 2 44 ltac:(lia) ltac:(lia)). nia.
    + (* the product is rounded to nearest *)
      assert (Ht : pe + n <= -43) by (unfold n, pe, fexp64; lia).
      assert (Hn53 : n <= 53) by (unfold n, pe, fexp64; lia).
      destruct (binary_round_aux_nearest pm pe n ltac:(lia) eq_refl ltac:(lia) ltac:(lia))
        as (m1 & Hm1 & Hnear & Hnnf & Hval).
      set (R := binary_round_aux 53 1024 false pm pe loc_Exact) in *.
      set (T := 2 ^ (- (pe + n))).
      assert (HT : 2 ^ 43 <= T) by (apply Z.pow_le_mono_r; lia).
      assert (HN : 0 < 2 ^ n <= 2 ^ 53).
      { split; [apply Z.pow_pos_nonneg; lia|apply Z.pow_le_mono_r; lia]. }
      assert (HFT : F * 2 ^ 43 = T * 2 ^ n).
      { unfold F, T. rewrite <- !Z.pow_add_r by lia. f_equal. unfold pe. lia. }
      rewrite Hpm in Hnear.
      destruct (millis_bounds (Zpos mf) F T (2 ^ n) m1 ltac:(lia) HFT HT HN Hm1 Hnear)
        as (Hk & Hk1 & Hk2).
      exists (m1 / T).
      assert (E : trunc R = Some (m1 / T)).
      { rewrite trunc_nonneg by assumption. f_equal.
        rewrite (Qfloor_comp _ _ Hval). apply Qfloor_dy. lia. }
      split; [exact E|]. split; [assumption|]. split; [assumption|].
      split; [apply Hlow; assumption|apply Hhigh; assumption].
Qed.

End Millis.

(** ** Fields of a timestamp *)

Section Fields.

Lemma Qmod_bounds a b : (0 < b)%Q -> (0 <= Qmod a b < b)%Q.
Proof.
  intros Hb. unfold Qmod.
  pose proof (Qfloor_le (a / b)) as Hl. pose proof (Qlt_floor (a / b)) as Hu.
  rewrite inject_Z_plus in Hu. change (inject_Z 1) with 1%Q in Hu.
  assert (E : (a == b * (a / b))%Q).
  { field. intros H. rewrite H in Hb. now apply Qlt_irrefl in Hb. }
  set (t := (a / b)%Q) in *. set (f := inject_Z (Qfloor t)) in *.
  assert (E' : (a - b * f == b * (t - f))%Q) by (rewrite E at 1; ring).
  rewrite E'. split.
  - apply Qmult_le_0_compat; lra.
  - setoid_replace b with (b * 1)%Q at 2 by ring.
    apply Qmult_lt_l; [assumption|lra].
Qed.

Lemma Qfloor_add_Z x k : Qfloor (x + inject_Z k) = Qfloor x + k.
Proof.
  destruct x as [n d]. unfold Qplus, inject_Z, Qfloor. cbn [Qnum Qden].
  rewrite Pos.mul_1_r, Z.mul_1_r. apply Z.div_add. lia.
Qed.

(** Whole seconds split into a multiple of [w] and a remainder. *)
Lemma Qfloor_split x w :
  0 < w ->
  Qfloor (x / inject_Z w) * w + Qfloor (Qmod x (inject_Z w)) = Qfloor x.
Proof.
  intros Hw. unfold Qmod.
  set (k := Qfloor (x / inject_Z w)).
  assert (E : (x - inject_Z w * inject_Z k == x + inject_Z (- (w * k)))%Q).
  { rewrite inject_Z_opp, inject_Z_mult. ring. }
  rewrite (Qfloor_comp _ _ E), Qfloor_add_Z. lia.
Qed.

Lemma seconds_value_rem s w :
  seconds_value s -> 0 < w < 2 ^ 53 ->
  exists r, float_rem s (of_Z w) = Ok r /\ nn r /\
            (B2Q r == Qmod (B2Q s) (inject_Z w))%Q.
Proof.
  intros [Hwf _] Hw.
  destruct (of_Z_spec w Hw) as (mw & EW & _ & HbW).
  pose proof (of_Z_value w Hw) as Hv. rewrite EW in Hv |- *.
  cbn [B2Q cond_Zopp] in Hv.
  destruct (float_rem_spec s mw _ Hwf HbW) as (r & Hr & Hnn & Hval).
  exists r. split; [assumption|]. split; [assumption|].
  rewrite Hval. apply Qmod_comp; [reflexivity|assumption].
Qed.

Lemma seconds_value_floor_div s w :
  seconds_value s -> 0 < w < 2 ^ 53 ->
  exists q, float_floor_div s (of_Z w) = Ok q /\
            py_int q = Ok (Qfloor (B2Q s / inject_Z w)).
Proof.
  intros [Hwf Hlt] Hw.
  destruct (float_floor_div_spec s w Hwf Hlt Hw) as (q & Hq & Ht).
  exists q. split; [assumption|]. unfold py_int. now rewrite Ht.
Qed.

Lemma nn_seconds_value r bound :
  nn r -> (B2Q r < inject_Z bound)%Q -> bound <= 2 ^ 53 -> seconds_value r.
Proof.
  intros Hnn Hlt Hb. split; [now apply nn_wf|].
  eapply Qlt_le_trans; [exact Hlt|]. now rewrite <- Zle_Qle.
Qed.

Lemma py_int_nn r : nn r -> py_int r = Ok (Qfloor (B2Q r)).
Proof.
  intros Hnn. unfold py_int. rewrite trunc_nonneg; [reflexivity|].
  destruct r as [[|]|[|]| |[|] m e]; simpl in *; tauto.
Qed.

(** The four fields computed for a seconds value: three exact floors
    and a truncated binary64 product. *)
Lemma timestamp_fields_spec s :
  seconds_value s ->
  exists r millis,
    float_rem s (of_Z 1) = Ok r /\
    (B2Q r == Qmod (B2Q s) 1)%Q /\
    millis = Qfloor (B2Q (mul r (of_Z 1000))) /\
    Qfloor (Qmod (B2Q s) 1 * 1000) <= millis <= 999 /\
    (inject_Z millis - 1 < Qmod (B2Q s) 1 * 1000)%Q /\
    (inject_Z millis <= Qmod (B2Q s) 1 * 1000 + (1 # 17592186044416))%Q /\
    timestamp_fields s = Ok (truncated_fields (B2Q s) millis).
Proof.
  intros Hs.
  destruct (seconds_value_floor_div s 3600 Hs ltac:(lia)) as (qh & Hqh & Hh).
  destruct (seconds_value_rem s 3600 Hs ltac:(lia)) as (rh & Hrh & Hnh & Hvh).
  destruct (seconds_value_rem s 60 Hs ltac:(lia)) as (rs & Hrs & Hns & Hvs).
  destruct (seconds_value_rem s 1 Hs ltac:(lia)) as (r1 & Hr1 & Hn1 & Hv1).
  assert (Hrh_lt : (B2Q rh < inject_Z 3600)%Q).
  { rewrite Hvh. apply Qmod_bounds. reflexivity. }
  destruct (seconds_value_floor_div rh 60
              (nn_seconds_value rh 3600 Hnh Hrh_lt ltac:(lia)) ltac:(lia))
    as (qm & Hqm & Hm).
  assert (Hr1_lt : (B2Q r1 < 1)%Q).
  { rewrite Hv1. apply (Qmod_bounds (B2Q s) 1). reflexivity. }
  destruct (mul_1000_spec r1 Hn1 Hr1_lt) as (k & Hk & Hknn & Hkb & Hkl & Hkh).
  exists r1, k. split; [assumption|]. split; [exact Hv1|].
  assert (Hkf : k = Qfloor (B2Q (mul r1 (of_Z 1000)))).
  { rewrite trunc_nonneg in Hk by assumption. now injection Hk. }
  split; [assumption|].
  assert (EP : (B2Q r1 * 1000 == Qmod (B2Q s) 1 * 1000)%Q) by (rewrite Hv1; reflexivity).
  split; [rewrite <- (Qfloor_comp _ _ EP); assumption|].
  split; [rewrite <- EP; assumption|].
  split; [rewrite <- EP; assumption|].
  unfold timestamp_fields, truncated_fields.
  rewrite Hqh. cbn [res_bind]. rewrite Hh. cbn [res_bind].
  rewrite Hrh. cbn [res_bind]. rewrite Hqm. cbn [res_bind]. rewrite Hm. cbn [res_bind].
  rewrite Hrs. cbn [res_bind]. rewrite (py_int_nn rs Hns). cbn [res_bind].
  rewrite Hr1. cbn [res_bind]. unfold py_int. rewrite Hk. cbn [res_bind].
  rewrite (Qfloor_comp _ _ Hvs).
  assert (Em : (B2Q rh / inject_Z 60 == Qmod (B2Q s) 3600 / 60)%Q) by (rewrite Hvh; reflexivity).
  rewrite (Qfloor_comp _ _ Em). reflexivity.
Qed.

End Fields.

(** ** Decimal rendering *)

Section Decimal.

Lemma chars_uint_uint_chars d : chars_uint (uint_chars d) = Some d.
Proof. induction d; cbn [uint_chars chars_uint]; rewrite ?IHd; reflexivity. Qed.

Lemma uint_chars_digits d : Forall (fun c => is_digit c = true) (uint_chars d).
Proof. induction d; cbn [uint_chars]; constructor; auto. Qed.

Lemma uint_chars_nonnil d : d <> Nil -> uint_chars d <> [].
Proof. destruct d; cbn; congruence. Qed.

Lemma digits_of_nonnil n : digits_of n <> [].
Proof.
  unfold digits_of. apply uint_chars_nonnil. destruct n as [|p]; cbn.
  - discriminate.
  - apply DecimalPos.Unsigned.to_uint_nonnil.
Qed.

Lemma digits_of_digits n : Forall (fun c => is_digit c = true) (digits_of n).
Proof. apply uint_chars_digits. Qed.

Lemma chars_uint_zeros k s d :
  chars_uint s = Some d -> chars_uint (repeat 48%N k ++ s) = Some (Nat.iter k D0 d).
Proof.
  intros H. induction k as [|k IH]; cbn [repeat List.app Nat.iter chars_uint].
  - assumption.
  - rewrite IH. reflexivity.
Qed.

Lemma of_uint_zeros k d : N.of_uint (Nat.iter k D0 d) = N.of_uint d.
Proof. induction k as [|k IH]; cbn [Nat.iter]; [reflexivity|exact IH]. Qed.

Lemma zfill_digits w ds :
  Forall (fun c => is_digit c = true) ds ->
  Forall (fun c => is_digit c = true) (zfill w ds).
Proof.
  intros H. unfold zfill. apply Forall_app. split; [|assumption].
  apply Forall_forall. intros c Hc. apply repeat_spec in Hc. now subst c.
Qed.

Lemma zfill_length w ds : List.length (zfill w ds) = Nat.max w (List.length ds).
Proof.
  unfold zfill. rewrite length_app, repeat_length.
  unfold char. lia.
Qed.

Lemma format_d_nonneg w z :
  0 <= z -> format_d w z = zfill w (digits_of (Z.to_N z)).
Proof. intros H. unfold format_d. now rewrite (proj2 (Z.ltb_ge z 0) H). Qed.

Lemma number_format_d w z : 0 <= z -> number (format_d w z) = Some z.
Proof.
  intros Hz. rewrite format_d_nonneg by assumption. unfold number.
  destruct (zfill w (digits_of (Z.to_N z))) eqn:E.
  - exfalso. apply (f_equal (@List.length _)) in E. rewrite zfill_length in E.
    pose proof (digits_of_nonnil (Z.to_N z)) as Hn.
    destruct (digits_of (Z.to_N z)); [congruence|cbn in E; lia].
  - rewrite <- E. unfold zfill, digits_of.
    rewrite (chars_uint_zeros _ _ _ (chars_uint_uint_chars _)).
    cbn [option_map]. rewrite of_uint_zeros, Unsigned.of_to, Z2N.id by assumption.
    reflexivity.
Qed.

Lemma format_d_digits w z :
  0 <= z -> Forall (fun c => is_digit c = true) (format_d w z).
Proof.
  intros Hz. rewrite format_d_nonneg by assumption.
  apply zfill_digits, digits_of_digits.
Qed.

Lemma format_d_min_length w z : 0 <= z -> (w <= List.length (format_d w z))%nat.
Proof. intros Hz. rewrite format_d_nonneg, zfill_length by assumption. lia. Qed.

Lemma range_In n z : 0 <= z < Z.of_nat n -> In z (List.map Z.of_nat (seq 0 n)).
Proof.
  intros Hz. apply in_map_iff. exists (Z.to_nat z). split; [lia|].
  apply in_seq. lia.
Qed.

Lemma format_d_2_length z : 0 <= z < 100 -> List.length (format_d 2 z) = 2%nat.
Proof.
  intros Hz.
  assert (H : forallb (fun z => (List.length (format_d 2 z) =? 2)%nat)
                (List.map Z.of_nat (seq 0 100)) = true) by (vm_compute; reflexivity).
  rewrite forallb_forall in H. apply Nat.eqb_eq, H, (range_In 100). lia.
Qed.

Lemma format_d_3_length z : 0 <= z < 1000 -> List.length (format_d 3 z) = 3%nat.
Proof.
  intros Hz.
  assert (H : forallb (fun z => (List.length (format_d 3 z) =? 3)%nat)
                (List.map Z.of_nat (seq 0 1000)) = true) by (vm_compute; reflexivity).
  rewrite forallb_forall in H. apply Nat.eqb_eq, H, (range_In 1000). lia.
Qed.

Lemma two_digits_bound d :
  (List.length (uint_chars d) <= 2)%nat -> (N.of_uint d <= 99)%N.
Proof.
  intros H.
  destruct d as [|d|d|d|d|d|d|d|d|d|d]; cbn in H; try (cbn; lia);
  destruct d as [|d|d|d|d|d|d|d|d|d|d]; cbn in H; try (cbn; lia);
  destruct d; cbn in H; try lia; cbn; lia.
Qed.

(** Past 99 the field grows beyond two digits. *)
Lemma format_d_2_grows z : 99 < z -> (2 < List.length (format_d 2 z))%nat.
Proof.
  intros Hz. rewrite format_d_nonneg, zfill_length by lia.
  destruct (le_lt_dec (List.length (digits_of (Z.to_N z))) 2) as [L|L]; [exfalso|lia].
  apply two_digits_bound in L. rewrite Unsigned.of_to in L. lia.
Qed.

Lemma span_digits_app ds c rest :
  Forall (fun c => is_digit c = true) ds -> is_digit c = false ->
  span_digits (ds ++ c :: rest) = (ds, c :: rest).
Proof.
  intros Hd Hc. induction Hd as [|x ds Hx Hds IH]; cbn [List.app span_digits].
  - now rewrite Hc.
  - now rewrite Hx, IH.
Qed.

Lemma length_2_inv (l : str) : List.length l = 2%nat -> exists a b, l = [a; b].
Proof. destruct l as [|a [|b [|c l]]]; cbn; try discriminate. intros _. now exists a, b. Qed.

Lemma length_3_inv (l : str) : List.length l = 3%nat -> exists a b c, l = [a; b; c].
Proof.
  destruct l as [|a [|b [|c [|d l]]]]; cbn; try discriminate. intros _. now exists a, b, c.
Qed.

(** A rendered timestamp reads back as its fields. *)
Lemma parse_render h m s k :
  0 <= h -> 0 <= m <= 59 -> 0 <= s <= 59 -> 0 <= k <= 999 ->
  parse_srt_time (render_timestamp (h, m, s, k)) = Some (h, m, s, k).
Proof.
  intros Hh Hm Hs Hk. unfold render_timestamp, parse_srt_time.
  pose proof (number_format_d 2 m ltac:(lia)) as Nm.
  pose proof (number_format_d 2 s ltac:(lia)) as Ns.
  pose proof (number_format_d 3 k ltac:(lia)) as Nk.
  destruct (length_2_inv _ (format_d_2_length m ltac:(lia))) as (m1 & m2 & Em).
  destruct (length_2_inv _ (format_d_2_length s ltac:(lia))) as (s1 & s2 & Es).
  destruct (length_3_inv _ (format_d_3_length k ltac:(lia))) as (k1 & k2 & k3 & Ek).
  rewrite Em in *. rewrite Es in *. rewrite Ek in *.
  change (lit ":") with [58%N]. change (lit ",") with [44%N]. cbn [List.app].
  rewrite span_digits_app by (try apply format_d_digits; auto).
  pose proof (format_d_min_length 2 h Hh) as Hl.
  replace (2 <=? List.length (format_d 2 h))%nat with true
    by (symmetry; apply Nat.leb_le; assumption).
  cbn [andb N.eqb Pos.eqb]. rewrite (number_format_d 2 h Hh), Nm, Ns, Nk.
  replace (m <=? 59) with true by (symmetry; apply Z.leb_le; lia).
  replace (s <=? 59) with true by (symmetry; apply Z.leb_le; lia).
  reflexivity.
Qed.

End Decimal.

(** ** Timestamps *)


Section Timestamps.

Lemma Qmod_1 x : (Qmod x 1 == x - inject_Z (Qfloor x))%Q.
Proof.
  unfold Qmod. assert (E : (x / 1 == x)%Q) by (field).
  rewrite (Qfloor_comp _ _ E). ring.
Qed.

Lemma Qmod_3600_60 x : (Qmod (Qmod x 3600) 60 == Qmod x 60)%Q.
Proof.
  unfold Qmod at 1 3. set (y := Qmod x 3600).
  assert (E : (y / 60 == x / 60 + inject_Z (- (60 * Qfloor (x / 3600))))%Q).
  { unfold y, Qmod. rewrite inject_Z_opp, inject_Z_mult.
    change (inject_Z 60) with 60%Q. field. }
  rewrite (Qfloor_comp _ _ E), Qfloor_add_Z.
  unfold y, Qmod. rewrite inject_Z_plus, inject_Z_opp, inject_Z_mult.
  change (inject_Z 60) with 60%Q. ring.
Qed.

Lemma Qfloor_nonneg x : (0 <= x)%Q -> 0 <= Qfloor x.
Proof. intros H. change 0 with (Qfloor 0). now apply Qfloor_resp_le. Qed.

Lemma Qfloor_lt_Z x k : (x < inject_Z k)%Q -> Qfloor x < k.
Proof.
  intros H. rewrite Zlt_Qlt. eapply Qle_lt_trans; [apply Qfloor_le|assumption].
Qed.

Lemma Qfloor_ge_Z x k : (inject_Z k <= x)%Q -> k <= Qfloor x.
Proof. intros H. rewrite <- (Qfloor_Z k). now apply Qfloor_resp_le. Qed.

(** Hours, minutes and seconds of the exact value. *)
Lemma hms_split x :
  (0 <= x)%Q ->
  let h := Qfloor (x / 3600) in
  let m := Qfloor (Qmod x 3600 / 60) in
  let s := Qfloor (Qmod x 60) in
  0 <= h /\ 0 <= m <= 59 /\ 0 <= s <= 59 /\
  h * 3600 + m * 60 + s = Qfloor x.
Proof.
  intros Hx h m s.
  destruct (Qmod_bounds x 3600 ltac:(reflexivity)) as [Hy0 Hy1].
  destruct (Qmod_bounds x 60 ltac:(reflexivity)) as [Hz0 Hz1].
  destruct (Qfloor_div_bounds x 3600 Hx ltac:(lia)) as [Hh _].
  destruct (Qfloor_div_bounds (Qmod x 3600) 60 Hy0 ltac:(lia)) as [Hm _].
  change (inject_Z 3600) with 3600%Q in Hh. change (inject_Z 60) with 60%Q in Hm.
  assert (Hm' : m < 60).
  { apply Qfloor_lt_Z. apply Qlt_shift_div_r; [reflexivity|exact Hy1]. }
  assert (Hs' : s < 60) by (apply Qfloor_lt_Z; exact Hz1).
  pose proof (Qfloor_nonneg _ Hz0) as Hs.
  pose proof (Qfloor_split x 3600 ltac:(lia)) as E1.
  pose proof (Qfloor_split (Qmod x 3600) 60 ltac:(lia)) as E2.
  change (inject_Z 3600) with 3600%Q in E1. change (inject_Z 60) with 60%Q in E2.
  rewrite (Qfloor_comp _ _ (Qmod_3600_60 x)) in E2.
  fold h in Hh, E1. fold m in Hm, E2. fold s in Hs, E2.
  repeat split; lia.
Qed.

Lemma seconds_value_nonneg s : seconds_value s -> (0 <= B2Q s)%Q.
Proof. intros [H _]. now apply B2Q_nonneg. Qed.

Lemma sample_1024th_seconds : seconds_value sample_1024th.
Proof. split; [reflexivity|vm_compute; reflexivity]. Qed.

Lemma sample_65_5_seconds : seconds_value sample_65_5.
Proof. split; [reflexivity|vm_compute; reflexivity]. Qed.

End Timestamps.

(** C1 (as amended).  For every non-negative seconds value [s] below
    [2^53] the fields computed by
    [format_timestamp] are [hours = floor(s/3600)],
    [minutes = floor((s mod 3600)/60)], [secs = floor(s mod 60)] and
    [millis = floor(p)], where [p] is the binary64 product of
    [s mod 1] and 1000: the millisecond field is obtained by truncation.
    It is [floor((s mod 1) * 1000)], or one more when the product
    rounds up to an integer, and never exceeds 999. *)
Theorem format_timestamp_fields_truncate (s : float) :
  seconds_value s ->
  exists r millis,
    timestamp_fields s = Ok (truncated_fields (B2Q s) millis) /\
    format_timestamp s = Ok (render_timestamp (truncated_fields (B2Q s) millis)) /\
    float_rem s (of_Z 1) = Ok r /\ (B2Q r == Qmod (B2Q s) 1)%Q /\
    millis = Qfloor (B2Q (mul r (of_Z 1000))) /\
    Qfloor (Qmod (B2Q s) 1 * 1000) <= millis <= Qfloor (Qmod (B2Q s) 1 * 1000) + 1 /\
    millis <= 999.
Proof.
  intros Hs.
  destruct (timestamp_fields_spec s Hs) as (r & k & Hr & Hv & Hk & Hb & Hl & Hsur & Hf).
  exists r, k. split; [assumption|]. split.
  { unfold format_timestamp. rewrite Hf. reflexivity. }
  split; [assumption|]. split; [assumption|]. split; [assumption|].
  split; [|lia]. split; [lia|].
  assert (k - 1 <= Qfloor (Qmod (B2Q s) 1 * 1000)); [|lia].
  apply Qfloor_ge_Z. unfold Z.sub. rewrite inject_Z_plus, inject_Z_opp.
  change (inject_Z 1) with 1%Q.
  set (P := (Qmod (B2Q s) 1 * 1000)%Q) in *. set (kq := inject_Z k) in *.
  clearbody P kq. clear - Hl. lra.
Qed.

Lemma format_timestamp_fields_truncate_witness :
  seconds_value sample_65_5 /\
  exists r millis,
    timestamp_fields sample_65_5 = Ok (truncated_fields (B2Q sample_65_5) millis) /\
    format_timestamp sample_65_5 =
      Ok (render_timestamp (truncated_fields (B2Q sample_65_5) millis)) /\
    float_rem sample_65_5 (of_Z 1) = Ok r /\ (B2Q r == Qmod (B2Q sample_65_5) 1)%Q /\
    millis = Qfloor (B2Q (mul r (of_Z 1000))) /\
    Qfloor (Qmod (B2Q sample_65_5) 1 * 1000) <= millis
      <= Qfloor (Qmod (B2Q sample_65_5) 1 * 1000) + 1 /\
    millis <= 999.
Proof.
  split; [split; [reflexivity|vm_compute; reflexivity]|].
  apply (format_timestamp_fields_truncate sample_65_5).
  split; [reflexivity|vm_compute; reflexivity].
Defined.

(** C1 fails as stated: at [s = 1/1024] the code yields millisecond
    field 0, while [round((s mod 1) * 1000) = round(0.9765625) = 1];
    and past [2^53] the binary64 quotient is rounded: at
    [s = 11 * 2^60] the code yields one hour less than
    [floor(s/3600)]. *)
Lemma format_timestamp_round_counterexample :
  (seconds_value sample_1024th /\
   timestamp_fields sample_1024th = Ok (0, 0, 0, 0) /\
   specified_fields (B2Q sample_1024th) = (0, 0, 0, 1) /\
   timestamp_fields sample_1024th <> Ok (specified_fields (B2Q sample_1024th))) /\
  (wf sample_11_2_60 /\
   timestamp_fields sample_11_2_60 = Ok (3522815708520920, 18, 56, 0) /\
   Qfloor (B2Q sample_11_2_60 / 3600) = 3522815708520921).
Proof.
  split.
  - split; [split; [reflexivity|vm_compute; reflexivity]|].
    split; [vm_compute; reflexivity|]. split; [vm_compute; reflexivity|].
    vm_compute. discriminate.
  - split; [reflexivity|]. split; vm_compute; reflexivity.
Qed.

(** C2 (as amended).  For every non-negative seconds value [s] below
    [2^53], [format_timestamp s] is a string
    of the grammar [HH:MM:SS,mmm] (two or more hour digits, minutes and
    seconds two digits in 00-59, milliseconds three digits in 000-999)
    whose decoded value falls short of [s] by less than one
    millisecond, and exceeds it by no more than the rounding of the
    binary64 product, [2^-44] milliseconds. *)
Theorem format_timestamp_grammar (s : float) :
  seconds_value s ->
  exists t h m sec k,
    format_timestamp s = Ok t /\
    parse_srt_time t = Some (h, m, sec, k) /\
    0 <= h /\ 0 <= m <= 59 /\ 0 <= sec <= 59 /\ 0 <= k <= 999 /\
    (B2Q s - decoded (h, m, sec, k) < 1 # 1000)%Q /\
    (decoded (h, m, sec, k) - B2Q s <= 1 # 17592186044416000)%Q.
Proof.
  intros Hs.
  destruct (timestamp_fields_spec s Hs) as (r & k & Hr & Hv & Hk & Hb & Hl & Hsur & Hf).
  pose proof (seconds_value_nonneg s Hs) as Hx.
  destruct (hms_split (B2Q s) Hx) as (Hh & Hm & Hsec & Hsum).
  cbv zeta in Hh, Hm, Hsec, Hsum.
  destruct (Qmod_bounds (B2Q s) 1 ltac:(reflexivity)) as [Hf0 Hf1].
  assert (Hk0 : 0 <= k).
  { assert (0 <= Qfloor (Qmod (B2Q s) 1 * 1000)); [|lia].
    apply Qfloor_nonneg. apply Qmult_le_0_compat; [assumption|discriminate]. }
  exists (render_timestamp (truncated_fields (B2Q s) k)).
  exists (Qfloor (B2Q s / 3600)), (Qfloor (Qmod (B2Q s) 3600 / 60)),
         (Qfloor (Qmod (B2Q s) 60)), k.
  split. { unfold format_timestamp. rewrite Hf. reflexivity. }
  split. { unfold truncated_fields. apply parse_render; lia. }
  split; [assumption|]. split; [assumption|]. split; [assumption|]. split; [lia|].
  pose proof (Qmod_1 (B2Q s)) as Hfrac.
  pose proof (Qlt_floor (Qmod (B2Q s) 1 * 1000)) as Hup.
  assert (Hup' : (Qmod (B2Q s) 1 * 1000 < inject_Z k + 1)%Q).
  { eapply Qlt_le_trans; [exact Hup|].
    rewrite inject_Z_plus. apply Qplus_le_l. rewrite <- Zle_Qle. lia. }
  unfold decoded. rewrite Hsum.
  set (x := B2Q s) in *. set (f := Qmod x 1) in *.
  set (fl := inject_Z (Qfloor x)) in *. set (kq := inject_Z k) in *.
  clearbody x f fl kq. clear - Hfrac Hsur Hup'.
  unfold Qdiv. change (/ 1000)%Q with (1 # 1000)%Q.
  split; lra.
Qed.

Lemma format_timestamp_grammar_witness :
  seconds_value sample_65_5 /\
  exists t h m sec k,
    format_timestamp sample_65_5 = Ok t /\
    parse_srt_time t = Some (h, m, sec, k) /\
    0 <= h /\ 0 <= m <= 59 /\ 0 <= sec <= 59 /\ 0 <= k <= 999 /\
    (B2Q sample_65_5 - decoded (h, m, sec, k) < 1 # 1000)%Q /\
    (decoded (h, m, sec, k) - B2Q sample_65_5 <= 1 # 17592186044416000)%Q.
Proof.
  split; [split; [reflexivity|vm_compute; reflexivity]|].
  apply (format_timestamp_grammar sample_65_5).
  split; [reflexivity|vm_compute; reflexivity].
Defined.

(** C2 fails as stated: past [2^53] the binary64 quotient by 3600 is
    rounded.  At the whole number of seconds [s = 11 * 2^60] the output
    is of the grammar but its decoded value falls short of [s] by 3600
    seconds. *)
Lemma format_timestamp_decoded_counterexample :
  wf sample_11_2_60 /\
  (B2Q sample_11_2_60 == 12682136550675316736)%Q /\
  format_timestamp sample_11_2_60 = Ok (lit "3522815708520920:18:56,000") /\
  parse_srt_time (lit "3522815708520920:18:56,000") =
    Some (3522815708520920, 18, 56, 0) /\
  (B2Q sample_11_2_60 - decoded (3522815708520920, 18, 56, 0)%Z == 3600)%Q /\
  ~ (B2Q sample_11_2_60 - decoded (3522815708520920, 18, 56, 0)%Z < 1 # 1000)%Q.
Proof.
  split; [reflexivity|]. split; [vm_compute; reflexivity|].
  split; [vm_compute; reflexivity|]. split; [vm_compute; reflexivity|].
  split; [vm_compute; reflexivity|].
  intros H. vm_compute in H. discriminate H.
Qed.

(** C3 (as amended).  For every non-negative seconds value [s] below
    [2^53], [format_timestamp_simple s] is
    [[MM:SS]] with [MM = floor(s/60)] zero-padded to at least two
    digits (more past 99 minutes, no hour component) and
    [SS = floor(s mod 60)] on two digits, so [MM*60 + SS = floor(s)]. *)
Theorem format_timestamp_simple_spec (s : float) :
  seconds_value s ->
  let MM := Qfloor (B2Q s / 60) in
  let SS := Qfloor (Qmod (B2Q s) 60) in
  format_timestamp_simple s =
    Ok (lit "[" ++ format_d 2 MM ++ lit ":" ++ format_d 2 SS ++ lit "]") /\
  MM * 60 + SS = Qfloor (B2Q s) /\
  0 <= MM /\ 0 <= SS <= 59 /\
  number (format_d 2 MM) = Some MM /\ number (format_d 2 SS) = Some SS /\
  List.length (format_d 2 SS) = 2%nat /\
  (2 <= List.length (format_d 2 MM))%nat /\
  (99 < MM -> (2 < List.length (format_d 2 MM))%nat).
Proof.
  intros Hs MM SS.
  pose proof (seconds_value_nonneg s Hs) as Hx.
  destruct (seconds_value_floor_div s 60 Hs ltac:(lia)) as (q & Hq & Hi).
  destruct (seconds_value_rem s 60 Hs ltac:(lia)) as (r & Hr & Hn & Hv).
  change (inject_Z 60) with 60%Q in *. fold MM in Hi.
  destruct (Qmod_bounds (B2Q s) 60 ltac:(reflexivity)) as [Hz0 Hz1].
  destruct (Qfloor_div_bounds (B2Q s) 60 Hx ltac:(lia)) as [HM _].
  change (inject_Z 60) with 60%Q in HM. fold MM in HM.
  assert (HS0 : 0 <= SS) by (apply Qfloor_nonneg; assumption).
  assert (HS1 : SS < 60) by (apply Qfloor_lt_Z; exact Hz1).
  split.
  { unfold format_timestamp_simple. rewrite Hq. cbn [res_bind]. rewrite Hi. cbn [res_bind].
    rewrite Hr. cbn [res_bind]. rewrite (py_int_nn r Hn). cbn [res_bind].
    rewrite (Qfloor_comp _ _ Hv). reflexivity. }
  split. { apply (Qfloor_split (B2Q s) 60). lia. }
  split; [assumption|]. split; [lia|].
  split; [apply number_format_d; assumption|].
  split; [apply number_format_d; assumption|].
  split; [apply format_d_2_length; lia|].
  split; [apply format_d_min_length; assumption|].
  apply format_d_2_grows.
Qed.

Lemma format_timestamp_simple_spec_witness :
  seconds_value sample_65_5 /\
  (let MM := Qfloor (B2Q sample_65_5 / 60) in
   let SS := Qfloor (Qmod (B2Q sample_65_5) 60) in
   format_timestamp_simple sample_65_5 =
     Ok (lit "[" ++ format_d 2 MM ++ lit ":" ++ format_d 2 SS ++ lit "]") /\
   MM * 60 + SS = Qfloor (B2Q sample_65_5) /\
   0 <= MM /\ 0 <= SS <= 59 /\
   number (format_d 2 MM) = Some MM /\ number (format_d 2 SS) = Some SS /\
   List.length (format_d 2 SS) = 2%nat /\
   (2 <= List.length (format_d 2 MM))%nat /\
   (99 < MM -> (2 < List.length (format_d 2 MM))%nat)).
Proof.
  split; [split; [reflexivity|vm_compute; reflexivity]|].
  apply (format_timestamp_simple_spec sample_65_5).
  split; [reflexivity|vm_compute; reflexivity].
Defined.

(** C3 fails as stated: past [2^53] the binary64 quotient by 60 is
    rounded.  At the whole number of seconds [s = 3 * 2^56] the minute
    field is one less than [floor(s/60)], so [MM*60 + SS] is 60 less
    than [floor(s)]. *)
Lemma format_timestamp_simple_counterexample :
  wf sample_3_2_56 /\
  (B2Q sample_3_2_56 == 216172782113783808)%Q /\
  format_timestamp_simple sample_3_2_56 = Ok (lit "[3602879701896395:48]") /\
  Qfloor (B2Q sample_3_2_56 / 60) = 3602879701896396 /\
  Qfloor (Qmod (B2Q sample_3_2_56) 60) = 48 /\
  3602879701896395 * 60 + 48 = Qfloor (B2Q sample_3_2_56) - 60.
Proof.
  split; [reflexivity|]. repeat split; vm_compute; reflexivity.
Qed.

(** ** Artifact writers *)

Section Writers.

Lemma lines_app a b : lines (a ++ b) = lines a ++ lines b.
Proof. unfold lines. now rewrite map_app, concat_app. Qed.

Lemma lines_cons x l : lines (x :: l) = x ++ nl ++ lines l.
Proof. unfold lines. cbn [List.map List.concat]. now rewrite <- app_assoc. Qed.

Lemma utf8_app a b : utf8 (a ++ b) = utf8 a && utf8 b.
Proof. apply forallb_app. Qed.

Lemma f_write_ok text buf : utf8 text = true -> f_write text buf = (Ok tt, buf ++ text).
Proof. intros H. unfold f_write. now rewrite H. Qed.

Lemma f_write_line text buf :
  utf8 text = true -> f_write (text ++ nl) buf = (Ok tt, buf ++ text ++ nl).
Proof. intros H. apply f_write_ok. rewrite utf8_app, H. reflexivity. Qed.

Lemma for_each_txt segs : forall buf,
  Forall (fun seg => utf8 (strip (sd_text seg)) = true) segs ->
  for_each segs (fun seg => f_write (strip (sd_text seg) ++ nl)) buf =
  (Ok tt, buf ++ txt_document segs).
Proof.
  induction segs as [|seg segs IH]; intros buf H; cbn [for_each].
  - unfold w_ret, txt_document, txt_lines, lines. cbn. now rewrite app_nil_r.
  - inversion H as [|? ? Hseg Hrest]; subst.
    unfold w_bind. rewrite (f_write_line _ _ Hseg), (IH _ Hrest).
    unfold txt_document, txt_lines.
    cbn [List.map]. rewrite lines_cons, <- !app_assoc. reflexivity.
Qed.

Lemma plain_encodable c : plain c = true -> encodable c = true.
Proof.
  unfold plain, is_digit, encodable. intros H.
  apply negb_true_iff, andb_false_iff.
  destruct (55296 <=? c)%N eqn:L; [|now left]. right.
  apply N.leb_le in L. apply orb_true_iff in H.
  destruct H as [H|H]; [|apply N.eqb_eq in H; lia].
  apply orb_true_iff in H. destruct H as [H|H]; [|apply N.eqb_eq in H; lia].
  apply orb_true_iff in H. destruct H as [H|H]; [|apply N.eqb_eq in H; lia].
  apply andb_true_iff in H. destruct H as [_ H]. apply N.leb_le in H. lia.
Qed.

Lemma plain_utf8 x : Forall (fun c => plain c = true) x -> utf8 x = true.
Proof.
  intros H. apply forallb_forall. intros c Hc. rewrite Forall_forall in H.
  now apply plain_encodable, H.
Qed.

Lemma digit_plain c : is_digit c = true -> plain c = true.
Proof. intros H. unfold plain. now rewrite H. Qed.

Lemma format_d_plain w z : Forall (fun c => plain c = true) (format_d w z).
Proof.
  unfold format_d. destruct (z <? 0).
  - constructor; [reflexivity|].
    eapply Forall_impl; [apply digit_plain|]. apply zfill_digits, digits_of_digits.
  - eapply Forall_impl; [apply digit_plain|]. apply zfill_digits, digits_of_digits.
Qed.

Lemma render_timestamp_plain f : Forall (fun c => plain c = true) (render_timestamp f).
Proof.
  destruct f as [[[h m] sec] k]. unfold render_timestamp.
  repeat (apply Forall_app; split); try apply format_d_plain;
    repeat constructor.
Qed.

(** Whatever the time, a rendered timestamp holds plain characters only. *)
Lemma format_timestamp_plain x t :
  format_timestamp x = Ok t -> Forall (fun c => plain c = true) t.
Proof.
  unfold format_timestamp. destruct (timestamp_fields x) as [f|e]; cbn [res_bind];
    [|discriminate].
  intros H. injection H as <-. apply render_timestamp_plain.
Qed.

Lemma timing_line_utf8 a b :
  Forall (fun c => plain c = true) a -> Forall (fun c => plain c = true) b ->
  utf8 (a ++ lit " --> " ++ b ++ nl) = true.
Proof.
  intros Ha Hb. rewrite !utf8_app, (plain_utf8 a Ha), (plain_utf8 b Hb). reflexivity.
Qed.

Lemma for_each_srt segs : forall stamps i buf,
  Forall2 stamped segs stamps ->
  Forall (fun seg => utf8 (strip (sd_text seg)) = true) segs ->
  for_each (enumerate i segs) (fun '(i, seg) =>
     (f_write (str_of_int i ++ nl) ;;
      t_start <- w_lift (format_timestamp (sd_start seg)) ;;
      t_end <- w_lift (format_timestamp (sd_end seg)) ;;
      f_write (t_start ++ lit " --> " ++ t_end ++ nl) ;;
      f_write (strip (sd_text seg) ++ nl ++ nl))%writer) buf =
  (Ok tt, buf ++ lines (srt_lines i segs stamps)).
Proof.
  induction segs as [|seg segs IH]; intros stamps i buf H Hu.
  - inversion H; subst. cbn [enumerate for_each srt_lines].
    unfold w_ret, lines. cbn. now rewrite app_nil_r.
  - inversion H as [|x st l stamps' Hst Hrest]; subst.
    inversion Hu as [|? ? Hseg Hsegs]; subst.
    cbn [enumerate for_each srt_lines]. destruct Hst as [Hs He].
    unfold w_bind at 1 2.
    rewrite (f_write_line (str_of_int i) buf (plain_utf8 _ (format_d_plain 0 i))).
    cbv beta iota. unfold w_bind at 1. unfold w_lift at 1. rewrite Hs.
    cbv beta iota. unfold w_bind at 1. unfold w_lift at 1. rewrite He.
    cbv beta iota. unfold w_bind at 1.
    rewrite (f_write_ok _ _ (timing_line_utf8 _ _ (format_timestamp_plain _ _ Hs)
                               (format_timestamp_plain _ _ He))).
    cbv beta iota.
    rewrite (f_write_ok (strip (sd_text seg) ++ nl ++ nl))
      by (rewrite utf8_app, Hseg; reflexivity).
    rewrite (IH stamps' (i + 1)) by assumption.
    f_equal. unfold srt_block. cbn [List.app]. rewrite !lines_cons.
    cbn [List.app]. rewrite <- !app_assoc. reflexivity.
Qed.

Lemma srt_lines_length segs : forall stamps i,
  List.length segs = List.length stamps ->
  List.length (srt_lines i segs stamps) = (4 * List.length segs)%nat.
Proof.
  induction segs as [|seg segs IH]; intros [|st stamps] i H; cbn in H |- *;
    try discriminate; try reflexivity.
  rewrite (IH stamps (i + 1)) by lia. lia.
Qed.

Lemma srt_lines_block segs : forall stamps i n seg st,
  nth_error segs n = Some seg -> nth_error stamps n = Some st ->
  firstn 4 (skipn (4 * n) (srt_lines i segs stamps)) = srt_block (i + Z.of_nat n) seg st.
Proof.
  induction segs as [|s0 segs IH]; intros [|t0 stamps] i n seg st Hs Ht;
    destruct n as [|n]; cbn in Hs, Ht; try discriminate.
  - injection Hs as <-. injection Ht as <-. cbn [srt_lines].
    replace (i + Z.of_nat 0) with i by lia. reflexivity.
  - cbn [srt_lines]. replace (4 * S n)%nat with (4 + 4 * n)%nat by lia.
    change (srt_block i s0 t0 ++ srt_lines (i + 1) segs stamps)
      with (str_of_int i :: (fst t0 ++ lit " --> " ++ snd t0) :: strip (sd_text s0) :: []
            :: srt_lines (i + 1) segs stamps).
    cbn [skipn Nat.add]. rewrite (IH stamps (i + 1) n seg st Hs Ht).
    f_equal. lia.
Qed.

Lemma Forall2_length_eq {A B} (R : A -> B -> Prop) l l' :
  Forall2 R l l' -> List.length l = List.length l'.
Proof. induction 1; cbn; congruence. Qed.

Lemma write_txt_run segs p s :
  Forall (fun seg => utf8 (strip (sd_text seg)) = true) segs ->
  write_txt segs p s =
  (Done tt, {| stdout := stdout s; files := files s ++ [(p, txt_document segs)];
               calls := calls s |}).
Proof. intros H. unfold write_txt, with_open_w. now rewrite for_each_txt. Qed.

Lemma write_srt_run segs stamps p s :
  Forall2 stamped segs stamps ->
  Forall (fun seg => utf8 (strip (sd_text seg)) = true) segs ->
  write_srt segs p s =
  (Done tt, {| stdout := stdout s; files := files s ++ [(p, srt_document segs stamps)];
               calls := calls s |}).
Proof.
  intros H Hu. unfold write_srt, with_open_w.
  rewrite (for_each_srt segs stamps 1 [] H Hu). reflexivity.
Qed.

Lemma join_lines l : l <> [] -> lines l = join nl l ++ nl.
Proof.
  induction l as [|x [|y l] IH]; intros H; [congruence| |].
  - cbn. now rewrite app_nil_r.
  - rewrite lines_cons, IH by discriminate. cbn [join].
    now rewrite <- !app_assoc.
Qed.

Lemma read_lines_from_line x : forall cur rest,
  ~ In 10%N x ->
  read_lines_from cur (x ++ nl ++ rest) = (List.rev cur ++ x) :: read_lines_from [] rest.
Proof.
  induction x as [|c x IH]; intros cur rest H.
  - cbn. now rewrite app_nil_r.
  - cbn [List.app read_lines_from].
    assert (Hc : (c =? 10)%N = false).
    { apply N.eqb_neq. intros ->. apply H. now left. }
    rewrite Hc, IH.
    + cbn [List.rev]. now rewrite <- app_assoc.
    + intros Hin. apply H. now right.
Qed.

(** Lines that hold no newline are read back as they were written. *)
Lemma read_lines_lines l : Forall one_line l -> read_lines (lines l) = l.
Proof.
  unfold read_lines. induction 1 as [|x l [Hx _] _ IH].
  - reflexivity.
  - rewrite lines_cons, read_lines_from_line by assumption. cbn [List.rev List.app].
    now rewrite IH.
Qed.

Lemma plain_one_line x : Forall (fun c => plain c = true) x -> one_line x.
Proof.
  intros H. rewrite Forall_forall in H.
  split; intros Hin; apply H in Hin; discriminate.
Qed.

Lemma one_line_app a b : one_line a -> one_line b -> one_line (a ++ b).
Proof.
  intros [Ha1 Ha2] [Hb1 Hb2].
  split; intros Hin; apply in_app_or in Hin; tauto.
Qed.

Lemma arrow_one_line : one_line (lit " --> ").
Proof.
  split; intros Hin; cbn in Hin;
    repeat (destruct Hin as [Hin|Hin]; [discriminate|]); exact Hin.
Qed.

Lemma srt_lines_one_line segs : forall stamps i,
  Forall2 stamped segs stamps ->
  Forall (fun seg => one_line (strip (sd_text seg))) segs ->
  Forall one_line (srt_lines i segs stamps).
Proof.
  induction segs as [|seg segs IH]; intros stamps i H Ht.
  - inversion H; subst. constructor.
  - inversion H as [|x st l stamps' [Hs He] Hrest]; subst.
    inversion Ht as [|? ? Htext Htexts]; subst.
    cbn [srt_lines]. unfold srt_block. cbn [List.app].
    constructor; [apply plain_one_line, format_d_plain|].
    constructor.
    { apply one_line_app; [apply plain_one_line; eapply format_timestamp_plain; eassumption|].
      apply one_line_app; [apply arrow_one_line|].
      apply plain_one_line. eapply format_timestamp_plain; eassumption. }
    constructor; [assumption|].
    constructor; [split; intros []|]. now apply IH.
Qed.

End Writers.

(** C4 (as amended).  For every segment list whose start and end times
    render as [stamps] and whose stripped texts are encodable,
    [write_srt] leaves in the file, for the segments in input order,
    the 1-based index alone on a line, the timing line
    [start --> end], the stripped text and an empty line, each ended
    by a newline, and nothing else.  When no stripped text holds a line
    break, the file read line by line has exactly four lines per
    segment, and lines [4n+1] to [4n+4] are those of segment [n+1]. *)
Theorem write_srt_four_lines segs stamps p s :
  Forall2 stamped segs stamps ->
  Forall (fun seg => utf8 (strip (sd_text seg)) = true) segs ->
  exists content,
    write_srt segs p s =
      (Done tt, {| stdout := stdout s; files := files s ++ [(p, content)];
                   calls := calls s |}) /\
    content = lines (srt_lines 1 segs stamps) /\
    (Forall (fun seg => one_line (strip (sd_text seg))) segs ->
     List.length (read_lines content) = (4 * List.length segs)%nat /\
     forall n seg st,
       nth_error segs n = Some seg -> nth_error stamps n = Some st ->
       firstn 4 (skipn (4 * n) (read_lines content)) =
       [ str_of_int (Z.of_nat n + 1);
         fst st ++ lit " --> " ++ snd st;
         strip (sd_text seg);
         [] ]).
Proof.
  intros H Hu. exists (lines (srt_lines 1 segs stamps)).
  split; [now apply write_srt_run|]. split; [reflexivity|].
  intros Ht. rewrite (read_lines_lines _ (srt_lines_one_line segs stamps 1 H Ht)). split.
  - apply srt_lines_length. eapply Forall2_length_eq; eassumption.
  - intros n seg st Hs Hst. rewrite (srt_lines_block segs stamps 1 n seg st Hs Hst).
    unfold srt_block. now rewrite Z.add_comm.
Qed.

Lemma write_srt_four_lines_witness :
  Forall2 stamped [to_seg_data sample_segment] [(lit "00:01:05,500", lit "00:01:10,000")] /\
  Forall (fun seg => utf8 (strip (sd_text seg)) = true) [to_seg_data sample_segment] /\
  exists content,
    write_srt [to_seg_data sample_segment]
      (artifact (joinpath (lit "/media") (lit "talk.mp4")) ".srt") init =
      (Done tt,
       {| stdout := [];
          files := [(artifact (joinpath (lit "/media") (lit "talk.mp4")) ".srt", content)];
          calls := [] |}) /\
    content = lines [ lit "1"; lit "00:01:05,500 --> 00:01:10,000"; lit "Hello world"; [] ].
Proof.
  assert (H : Forall2 stamped [to_seg_data sample_segment]
                [(lit "00:01:05,500", lit "00:01:10,000")]).
  { constructor; [|constructor]. split; vm_compute; reflexivity. }
  assert (Hu : Forall (fun seg => utf8 (strip (sd_text seg)) = true)
                 [to_seg_data sample_segment]).
  { constructor; [vm_compute; reflexivity|constructor]. }
  split; [exact H|]. split; [exact Hu|].
  destruct (write_srt_four_lines [to_seg_data sample_segment]
              [(lit "00:01:05,500", lit "00:01:10,000")]
              (artifact (joinpath (lit "/media") (lit "talk.mp4")) ".srt") init H Hu)
    as (content & Hrun & Hc & _).
  exists content. split; [exact Hrun|]. rewrite Hc. reflexivity.
Defined.

(** C4 fails as stated.  A time that is not a number makes [write_srt]
    raise once the index line is written; a stripped text of two lines
    makes a block of five lines; a text with a lone surrogate makes
    [write_srt] raise once the index and timing lines are written. *)
Lemma write_srt_four_lines_counterexample :
  write_srt [sample_unfinished] (joinpath (lit "/media") (lit "talk_trascrizione.srt")) init =
    (Raised nan_to_integer,
     {| stdout := [];
        files := [(joinpath (lit "/media") (lit "talk_trascrizione.srt"), lit "1" ++ nl)];
        calls := [] |}) /\
  (write_srt [sample_two_lines] (joinpath (lit "/media") (lit "talk_trascrizione.srt")) init =
     (Done tt,
      {| stdout := [];
         files := [(joinpath (lit "/media") (lit "talk_trascrizione.srt"),
                    lit "1" ++ nl ++ lit "00:01:05,500 --> 00:01:10,000" ++ nl ++
                    lit "a" ++ nl ++ lit "b" ++ nl ++ nl)];
         calls := [] |}) /\
   read_lines (lit "1" ++ nl ++ lit "00:01:05,500 --> 00:01:10,000" ++ nl ++
               lit "a" ++ nl ++ lit "b" ++ nl ++ nl) =
     [lit "1"; lit "00:01:05,500 --> 00:01:10,000"; lit "a"; lit "b"; []]) /\
  write_srt [sample_surrogate] (joinpath (lit "/media") (lit "talk_trascrizione.srt")) init =
    (Raised (encode_error (55296%N :: nl ++ nl)),
     {| stdout := [];
        files := [(joinpath (lit "/media") (lit "talk_trascrizione.srt"),
                   lit "1" ++ nl ++ lit "00:01:05,500 --> 00:01:10,000" ++ nl)];
        calls := [] |}).
Proof. repeat split; vm_compute; reflexivity. Qed.

(** C5 (as amended).  For every segment list whose stripped texts are
    encodable, [write_txt] leaves in the file, for the segments in
    order, the stripped text ended by a newline, and nothing else.
    When no stripped text holds a line break, the file read line by
    line has exactly one line per segment: the stripped texts. *)
Theorem write_txt_one_line_each segs p s :
  Forall (fun seg => utf8 (strip (sd_text seg)) = true) segs ->
  exists content,
    write_txt segs p s =
      (Done tt, {| stdout := stdout s; files := files s ++ [(p, content)];
                   calls := calls s |}) /\
    content = lines (txt_lines segs) /\
    (Forall (fun seg => one_line (strip (sd_text seg))) segs ->
     read_lines content = List.map (fun seg => strip (sd_text seg)) segs /\
     List.length (read_lines content) = List.length segs).
Proof.
  intros Hu. exists (lines (txt_lines segs)).
  split; [now apply write_txt_run|]. split; [reflexivity|].
  intros Ht.
  assert (E : read_lines (lines (txt_lines segs)) =
              List.map (fun seg => strip (sd_text seg)) segs).
  { unfold txt_lines. apply read_lines_lines. apply Forall_map. exact Ht. }
  split; [exact E|]. rewrite E. apply length_map.
Qed.

Lemma write_txt_one_line_each_witness :
  Forall (fun seg => utf8 (strip (sd_text seg)) = true) [to_seg_data sample_segment] /\
  exists content,
    write_txt [to_seg_data sample_segment]
      (artifact (joinpath (lit "/media") (lit "talk.mp4")) ".txt") init =
      (Done tt,
       {| stdout := [];
          files := [(artifact (joinpath (lit "/media") (lit "talk.mp4")) ".txt", content)];
          calls := [] |}) /\
    content = lines [lit "Hello world"].
Proof.
  assert (Hu : Forall (fun seg => utf8 (strip (sd_text seg)) = true)
                 [to_seg_data sample_segment]).
  { constructor; [vm_compute; reflexivity|constructor]. }
  split; [exact Hu|].
  destruct (write_txt_one_line_each [to_seg_data sample_segment]
              (artifact (joinpath (lit "/media") (lit "talk.mp4")) ".txt") init Hu)
    as (content & Hrun & Hc & _).
  exists content. split; [exact Hrun|]. rewrite Hc. reflexivity.
Defined.

(** C5 fails as stated.  A stripped text of two lines gives two lines
    for one segment; a text with a lone surrogate makes [write_txt]
    raise, and the file holds the lines written before it. *)
Lemma write_txt_one_line_each_counterexample :
  (write_txt [sample_two_lines] (joinpath (lit "/media") (lit "talk_trascrizione.txt")) init =
     (Done tt,
      {| stdout := [];
         files := [(joinpath (lit "/media") (lit "talk_trascrizione.txt"),
                    lit "a" ++ nl ++ lit "b" ++ nl)];
         calls := [] |}) /\
   read_lines (lit "a" ++ nl ++ lit "b" ++ nl) = [lit "a"; lit "b"]) /\
  write_txt [to_seg_data sample_segment; sample_surrogate]
    (joinpath (lit "/media") (lit "talk_trascrizione.txt")) init =
    (Raised (encode_error (55296%N :: nl)),
     {| stdout := [];
        files := [(joinpath (lit "/media") (lit "talk_trascrizione.txt"),
                   lit "Hello world" ++ nl)];
        calls := [] |}).
Proof. repeat split; vm_compute; reflexivity. Qed.

(** ** Runs *)

Section Runs.

Lemma check_cuda_available_total (p : probe) :
  check_cuda_available p = Returned (cuda_available p).
Proof. destruct p; reflexivity. Qed.

Lemma seg_data_utf8 segs :
  Forall (fun seg => utf8 (strip (seg_text seg)) = true) segs ->
  Forall (fun seg => utf8 (strip (sd_text seg)) = true) (List.map to_seg_data segs).
Proof. intros H. apply Forall_map. exact H. Qed.

Lemma write_json_run rt data p s :
  write_json rt data p s =
  (Done tt, {| stdout := stdout s; files := files s ++ [(p, json_dumps rt data)];
               calls := calls s |}).
Proof.
  unfold write_json, with_open_w. rewrite (f_write_ok _ _ (json_dumps_utf8 rt data)).
  reflexivity.
Qed.

Lemma format_timestamp_rendered x : seconds_value x -> format_timestamp x = Ok (rendered x).
Proof.
  intros H. destruct (timestamp_fields_spec x H) as (r & k & _ & _ & _ & _ & _ & _ & Hf).
  unfold rendered, format_timestamp. rewrite Hf. reflexivity.
Qed.

Lemma format_timestamp_simple_ok x :
  seconds_value x -> exists t, format_timestamp_simple x = Ok t.
Proof.
  intros Hs.
  destruct (seconds_value_floor_div x 60 Hs ltac:(lia)) as (q & Hq & Hi).
  destruct (seconds_value_rem x 60 Hs ltac:(lia)) as (r & Hr & Hn & Hv).
  unfold format_timestamp_simple. rewrite Hq. cbn [res_bind]. rewrite Hi. cbn [res_bind].
  rewrite Hr. cbn [res_bind]. rewrite (py_int_nn r Hn). cbn [res_bind].
  eexists. reflexivity.
Qed.

(** Segments whose times are seconds values are timed. *)
Lemma seconds_value_timed seg :
  seconds_value (seg_start seg) -> seconds_value (seg_end seg) -> timed seg.
Proof.
  intros Hs He. split; [now apply format_timestamp_simple_ok|].
  split; eexists; now apply format_timestamp_rendered.
Qed.

Lemma rendered_ok x t : format_timestamp x = Ok t -> format_timestamp x = Ok (rendered x).
Proof. intros H. unfold rendered. now rewrite H. Qed.

Lemma timed_stamped segs :
  Forall timed segs ->
  Forall2 stamped (List.map to_seg_data segs)
          (List.map stamps_of (List.map to_seg_data segs)).
Proof.
  induction 1 as [|seg segs (_ & [ts Hs] & [te He]) _ IH]; cbn [List.map];
    constructor; [|assumption].
  split; cbn; eapply rendered_ok; eassumption.
Qed.

Lemma collect_timed segs : forall acc_s acc_t s,
  Forall timed segs ->
  exists out,
    collect segs acc_s acc_t s =
    (Done (acc_s ++ List.map to_seg_data segs,
           acc_t ++ List.map (fun seg => strip (seg_text seg)) segs),
     {| stdout := out; files := files s; calls := calls s |}).
Proof.
  induction segs as [|seg segs IH]; intros acc_s acc_t s H.
  - exists (stdout s). cbn. rewrite !app_nil_r. now destruct s.
  - inversion H as [|? ? [[t Ht] _] Hrest]; subst.
    cbn [collect List.map]. unfold m_bind at 1. unfold lift. rewrite Ht.
    unfold m_bind at 1. unfold print at 1.
    match goal with |- context [collect segs ?a ?b ?s'] =>
      destruct (IH a b s' Hrest) as (out & ->)
    end.
    exists out. cbn [files calls]. rewrite <- !app_assoc. reflexivity.
Qed.

(** A run that completes: the three artifacts and the engine calls. *)
Lemma trascrivi_completes rt w input_file beam_size gen info s :
  completes w input_file beam_size gen info ->
  exists out,
    trascrivi rt w input_file beam_size s =
    (Done tt,
     {| stdout := out;
        files := files s ++
          [ (artifact (resolve w input_file) ".txt",
             txt_document (List.map to_seg_data (yielded gen)));
            (artifact (resolve w input_file) ".srt",
             srt_document (List.map to_seg_data (yielded gen))
               (List.map stamps_of (List.map to_seg_data (yielded gen))));
            (artifact (resolve w input_file) ".json",
             json_dumps rt (metadata rt w input_file beam_size gen info)) ];
        calls := calls s ++
          [ LoadModel (selected_model w);
            Transcribe (request_for w input_file beam_size) ] |}).
Proof.
  intros (Hex & Himp & Hload & Htr & Hfail & Htimed & Hutf).
  pose proof (seg_data_utf8 _ Hutf) as Hu.
  unfold trascrivi. rewrite Hex. cbn [negb].
  rewrite check_cuda_available_total.
  unfold selected_model, metadata, request_for in *.
  destruct (cuda_available (ctranslate2 w));
    cbn [selected fst snd] in *;
    rewrite Himp;
    (destruct (negb (str_eqb (lower (suffix (resolve w input_file))) (lit ".mp4")));
     unfold when, m_bind at 1, print at 1, m_ret;
     unfold m_bind at 1, lift_attempt;
     unfold m_bind at 1, print at 1;
     unfold m_bind at 1, print at 1;
     unfold m_bind at 1, record at 1; cbn [stdout files calls];
     rewrite Hload;
     unfold m_bind at 1, print at 1;
     unfold m_bind at 1, print at 1;
     unfold m_bind at 1, print at 1;
     unfold m_bind at 1, record at 1; cbn [stdout files calls];
     rewrite Htr;
     unfold m_bind at 1, print at 1;
     unfold m_bind at 1;
     match goal with |- context [collect (yielded gen) [] [] ?s'] =>
       destruct (collect_timed (yielded gen) [] [] s' Htimed) as (out & ->)
     end;
     cbn [List.app stdout files calls]; rewrite Hfail;
     unfold m_bind at 1, print at 1;
     unfold m_bind at 1, print at 1;
     unfold m_bind at 1; rewrite (write_txt_run _ _ _ Hu);
     unfold m_bind at 1; rewrite (write_srt_run _ _ _ _ (timed_stamped _ Htimed) Hu);
     unfold m_bind at 1; rewrite write_json_run;
     cbn [stdout files calls List.app];
     unfold m_bind, print; cbn [stdout files calls];
     eexists; rewrite <- !app_assoc; reflexivity).
Qed.

Lemma trascrivi_probe_irrelevant rt w input_file beam_size s :
  cuda_available (ctranslate2 w) = false ->
  trascrivi rt w input_file beam_size s =
  trascrivi rt (with_probe w (Supported [])) input_file beam_size s.
Proof.
  intros H. unfold trascrivi. rewrite !check_cuda_available_total.
  cbn [with_probe resolve path_exists ctranslate2 import_faster_whisper WhisperModel
       model_transcribe elapsed_seconds now_isoformat cuda_available].
  rewrite H. reflexivity.
Qed.

Lemma collect_calls segs : forall a b s, calls (snd (collect segs a b s)) = calls s.
Proof.
  induction segs as [|seg segs IH]; intros a b s; cbn [collect].
  - reflexivity.
  - unfold m_bind at 1. unfold lift.
    destruct (format_timestamp_simple (seg_start seg)); [|reflexivity].
    unfold m_bind at 1. unfold print at 1. rewrite IH. reflexivity.
Qed.

Lemma with_open_w_calls p body s : calls (snd (with_open_w p body s)) = calls s.
Proof. unfold with_open_w. destruct (body []) as [[u|e] buf]; reflexivity. Qed.

Lemma bind_calls {A B} (c : M A) (k : A -> M B) s :
  calls (snd (m_bind c k s)) =
  match c s with
  | (Done a, s') => calls (snd (k a s'))
  | (_, s') => calls s'
  end.
Proof. unfold m_bind. destruct (c s) as [[a|e|n|i] s']; reflexivity. Qed.

Lemma write_srt_calls segs p s : calls (snd (write_srt segs p s)) = calls s.
Proof. unfold write_srt. apply with_open_w_calls. Qed.

Lemma write_txt_calls segs p s : calls (snd (write_txt segs p s)) = calls s.
Proof. unfold write_txt. apply with_open_w_calls. Qed.

Lemma write_json_calls rt data p s : calls (snd (write_json rt data p s)) = calls s.
Proof. unfold write_json. apply with_open_w_calls. Qed.

Ltac step_print := unfold m_bind at 1; unfold print at 1.

(** The engine calls of any run: none, the model load, or the model
    load followed by the transcription request. *)
Lemma trascrivi_calls rt w input_file beam_size s :
  exists l,
    calls (snd (trascrivi rt w input_file beam_size s)) = calls s ++ l /\
    (l = [] \/ l = [LoadModel (selected_model w)] \/
     l = [LoadModel (selected_model w); Transcribe (request_for w input_file beam_size)]).
Proof.
  unfold trascrivi.
  destruct (path_exists w (resolve w input_file)); cbn [negb].
  2:{ exists []. split; [cbn; now rewrite app_nil_r|auto]. }
  rewrite check_cuda_available_total.
  assert (Hm : selected_model w =
    {| lr_model := lit "large-v3";
       lr_device := if cuda_available (ctranslate2 w) then lit "cuda" else lit "cpu";
       lr_compute_type := if cuda_available (ctranslate2 w) then lit "float16" else lit "int8" |}).
  { unfold selected_model. destruct (cuda_available (ctranslate2 w)); reflexivity. }
  rewrite Hm. unfold request_for.
  rewrite bind_calls.
  set (s0 := snd (when (negb (str_eqb (lower (suffix (resolve w input_file))) (lit ".mp4")))
                    (print (lit "Attenzione: Il file non ha estensione .mp4, procedo comunque..."))
                    s)).
  assert (Hs0 : calls s0 = calls s).
  { unfold s0, when. destruct (negb _); reflexivity. }
  replace (when (negb (str_eqb (lower (suffix (resolve w input_file))) (lit ".mp4")))
             (print (lit "Attenzione: Il file non ha estensione .mp4, procedo comunque...")) s)
    with (Done tt, s0) by (unfold s0, when; destruct (negb _); reflexivity).
  rewrite <- Hs0. clearbody s0. clear Hs0 s.
  unfold m_bind at 1. unfold lift_attempt. cbv beta zeta.
  set (model := {| lr_model := lit "large-v3" |}).
  set (request := {| tr_path := path_str (resolve w input_file) |}).
  do 2 step_print.
  destruct (import_faster_whisper w) as [e|].
  { destruct (is_ImportError e); exists []; (split; [cbn; now rewrite app_nil_r|auto]). }
  unfold m_bind at 1. unfold record at 1. cbn [stdout files calls].
  destruct (WhisperModel w model) as [e|].
  { exists [LoadModel model]. split; [|auto].
    destruct (contains (lit "CUDA") (exn_text e) || contains (lit "cuda") (exn_text e));
      reflexivity. }
  do 3 step_print.
  unfold m_bind at 1. unfold record at 1. cbn [stdout files calls].
  exists [LoadModel model; Transcribe request]. split; [|auto].
  destruct (model_transcribe w model request) as [[gen info]|e].
  2:{ cbn. now rewrite <- app_assoc. }
  step_print. rewrite bind_calls.
  match goal with |- context [collect (yielded gen) [] [] ?s1] =>
    pose proof (collect_calls (yielded gen) [] [] s1) as Hc;
    destruct (collect (yielded gen) [] [] s1) as [[[sl ft]|e|n|i] s2]
  end; cbn [snd calls] in Hc; try (rewrite Hc, <- app_assoc; reflexivity).
  destruct (failure gen) as [e|]; [cbn; rewrite Hc, <- app_assoc; reflexivity|].
  do 2 step_print.
  rewrite bind_calls.
  match goal with |- context [write_txt ?a ?p ?s3] =>
    pose proof (write_txt_calls a p s3) as Ht;
    destruct (write_txt a p s3) as [[u0|e|n|i] s3']
  end; cbn [snd calls] in Ht; try (rewrite Ht, Hc, <- app_assoc; reflexivity).
  rewrite bind_calls.
  match goal with |- context [write_srt ?a ?p ?s3] =>
    pose proof (write_srt_calls a p s3) as Hw;
    destruct (write_srt a p s3) as [[u|e|n|i] s4]
  end; cbn [snd calls] in Hw; try (rewrite Hw, Ht, Hc, <- app_assoc; reflexivity).
  rewrite bind_calls.
  match goal with |- context [write_json ?r ?d ?p ?s5] =>
    pose proof (write_json_calls r d p s5) as Hj;
    destruct (write_json r d p s5) as [[u'|e|n|i] s6]
  end; cbn [snd calls] in Hj; try (rewrite Hj, Hw, Ht, Hc, <- app_assoc; reflexivity).
  cbn. rewrite Hj, Hw, Ht, Hc, <- app_assoc. reflexivity.
Qed.

End Runs.

Section Samples.

Lemma sample_completes p :
  completes (sample_world p true [sample_segment]) (lit "talk.mp4") 5
            {| yielded := [sample_segment]; failure := None |} sample_info.
Proof.
  repeat split; try reflexivity.
  - constructor; [|constructor].
    apply seconds_value_timed; (split; [reflexivity|vm_compute; reflexivity]).
  - constructor; [vm_compute; reflexivity|constructor].
Qed.

End Samples.

(** C6 (as amended).  [check_cuda_available] never lets an instance
    of [Exception] reach its caller: whatever the probed backend does,
    including raising an instance of [Exception] while it is imported
    or queried, the function returns a boolean, [False] when probing
    fails; the run then goes on as if the backend had reported no
    compute type, with device [cpu] and compute type [int8].  No
    behaviour of the backend makes the function raise an instance of
    [Exception]; an interrupt passes through it. *)
Theorem check_cuda_available_never_raises (p : probe) :
  (exists b, check_cuda_available p = Returned b /\ (probe_failed p -> b = false)) /\
  (forall rt w input_file beam_size s,
     ctranslate2 w = p -> probe_failed p ->
     trascrivi rt w input_file beam_size s =
       trascrivi rt (with_probe w (Supported [])) input_file beam_size s /\
     selected_model w =
       {| lr_model := lit "large-v3"; lr_device := lit "cpu"; lr_compute_type := lit "int8" |}) /\
  (forall (q : probing) e, check_cuda_available q <> Failed e) /\
  (forall i, check_cuda_available (ImportInterrupted i) = Interrupted i /\
             check_cuda_available (QueryInterrupted i) = Interrupted i).
Proof.
  split; [|split; [|split]].
  - exists (cuda_available p). split; [apply check_cuda_available_total|].
    destruct p; cbn; tauto.
  - intros rt w input_file beam_size s Hp Hf.
    assert (Hc : cuda_available (ctranslate2 w) = false).
    { rewrite Hp. destruct p; cbn in Hf |- *; tauto. }
    split; [now apply trascrivi_probe_irrelevant|].
    unfold selected_model. rewrite Hc. reflexivity.
  - intros [[e0|e0|types]|i|i] e; discriminate.
  - intros i. split; reflexivity.
Qed.

Lemma check_cuda_available_never_raises_witness :
  probe_failed (ImportFails import_error) /\
  check_cuda_available (ImportFails import_error) = Returned false /\
  trascrivi sample_runtime
    (sample_world (ImportFails import_error) true [sample_segment]) (lit "talk.mp4") 5 init =
  trascrivi sample_runtime
    (with_probe (sample_world (ImportFails import_error) true [sample_segment]) (Supported []))
    (lit "talk.mp4") 5 init.
Proof.
  split; [exact I|]. split; [reflexivity|].
  apply (proj1 (proj2 (check_cuda_available_never_raises (ImportFails import_error)))
           sample_runtime
           (sample_world (ImportFails import_error) true [sample_segment])
           (lit "talk.mp4") 5 init eq_refl I).
Defined.

(** C6 fails as stated: [except Exception] does not catch what is no
    instance of [Exception].  A [KeyboardInterrupt] raised while
    [ctranslate2] is imported, or a [SystemExit] raised by the query,
    reaches the caller, and no boolean is returned. *)
Lemma check_cuda_available_interrupt_counterexample :
  check_cuda_available (ImportInterrupted KeyboardInterrupt) = Interrupted KeyboardInterrupt /\
  check_cuda_available (QueryInterrupted SystemExit) = Interrupted SystemExit /\
  ~ (exists b, check_cuda_available (ImportInterrupted KeyboardInterrupt) = Returned b).
Proof.
  split; [reflexivity|]. split; [reflexivity|]. intros [b H]. discriminate H.
Qed.

(** C7.  The device and compute type are determined by the probe
    result: [cuda] with [float16] when the accelerated backend with
    half precision is reported available, [cpu] with [int8] otherwise.
    Whenever a run loads the model it does so with that pair, and a
    run that completes records the same pair in the [parametri] block
    of the metadata document. *)
Theorem device_selection_recorded rt w input_file beam_size :
  let available := cuda_available (ctranslate2 w) in
  let device := if available then lit "cuda" else lit "cpu" in
  let compute_type := if available then lit "float16" else lit "int8" in
  check_cuda_available (ctranslate2 w) = Returned available /\
  (forall s m,
     In (LoadModel m) (calls (snd (trascrivi rt w input_file beam_size s))) ->
     In (LoadModel m) (calls s) \/
     m = {| lr_model := lit "large-v3"; lr_device := device;
            lr_compute_type := compute_type |}) /\
  (forall gen info s,
     completes w input_file beam_size gen info ->
     exists out txt srt doc params,
       trascrivi rt w input_file beam_size s =
       (Done tt,
        {| stdout := out;
           files := files s ++
             [ (artifact (resolve w input_file) ".txt", txt);
               (artifact (resolve w input_file) ".srt", srt);
               (artifact (resolve w input_file) ".json", json_dumps rt doc) ];
           calls := calls s ++
             [ LoadModel {| lr_model := lit "large-v3"; lr_device := device;
                            lr_compute_type := compute_type |};
               Transcribe (request_for w input_file beam_size) ] |}) /\
       jget "parametri" doc = Some params /\
       jget "device" params = Some (JStr device) /\
       jget "compute_type" params = Some (JStr compute_type)).
Proof.
  intros available device compute_type.
  assert (Hm : selected_model w =
               {| lr_model := lit "large-v3"; lr_device := device;
                  lr_compute_type := compute_type |}).
  { unfold selected_model, device, compute_type, available.
    destruct (cuda_available (ctranslate2 w)); reflexivity. }
  split; [apply check_cuda_available_total|]. split.
  - intros s m Hin.
    destruct (trascrivi_calls rt w input_file beam_size s) as (l & Hl & Hcases).
    rewrite Hl in Hin. apply in_app_or in Hin. destruct Hin as [Hin|Hin]; [now left|right].
    rewrite <- Hm.
    destruct Hcases as [ -> | [ -> | -> ] ]; cbn in Hin.
    + contradiction.
    + destruct Hin as [E|Hf]; [now injection E|contradiction].
    + destruct Hin as [E|[E|Hf]]; [now injection E|discriminate|contradiction].
  - intros gen info s H.
    destruct (trascrivi_completes rt w input_file beam_size gen info s H) as (out & Hrun).
    exists out. do 2 eexists. exists (metadata rt w input_file beam_size gen info).
    eexists. split; [|split; [reflexivity|]].
    + rewrite Hrun, Hm. reflexivity.
    + unfold device, compute_type, available.
      destruct (cuda_available (ctranslate2 w)); split; reflexivity.
Qed.

Lemma device_selection_recorded_witness :
  completes (sample_world (Supported [lit "int8"; lit "float16"]) true [sample_segment])
    (lit "talk.mp4") 5 {| yielded := [sample_segment]; failure := None |} sample_info /\
  exists out txt srt doc params,
    trascrivi sample_runtime
      (sample_world (Supported [lit "int8"; lit "float16"]) true [sample_segment])
      (lit "talk.mp4") 5 init =
    (Done tt,
     {| stdout := out;
        files :=
          [ ({| parent := lit "/media"; name := lit "talk_trascrizione.txt" |}, txt);
            ({| parent := lit "/media"; name := lit "talk_trascrizione.srt" |}, srt);
            ({| parent := lit "/media"; name := lit "talk_trascrizione.json" |},
             json_dumps sample_runtime doc) ];
        calls :=
          [ LoadModel {| lr_model := lit "large-v3"; lr_device := lit "cuda";
                         lr_compute_type := lit "float16" |};
            Transcribe (request_for
                          (sample_world (Supported [lit "int8"; lit "float16"]) true
                             [sample_segment]) (lit "talk.mp4") 5) ] |}) /\
    jget "parametri" doc = Some params /\
    jget "device" params = Some (JStr (lit "cuda")) /\
    jget "compute_type" params = Some (JStr (lit "float16")).
Proof.
  split; [apply sample_completes|].
  exact (proj2 (proj2 (device_selection_recorded sample_runtime
                  (sample_world (Supported [lit "int8"; lit "float16"]) true [sample_segment])
                  (lit "talk.mp4") 5))
           {| yielded := [sample_segment]; failure := None |} sample_info init
           (sample_completes _)).
Defined.

(** C8.  When the resolved input path does not exist the run prints the
    file-not-found message, exits with code 1 and writes no file. *)
Theorem missing_input_exits rt w input_file beam_size s :
  path_exists w (resolve w input_file) = false ->
  trascrivi rt w input_file beam_size s =
  (Exited 1,
   {| stdout := stdout s ++
        [lit "Errore: File non trovato: " ++ path_str (resolve w input_file)];
      files := files s;
      calls := calls s |}).
Proof. intros H. unfold trascrivi. rewrite H. reflexivity. Qed.

Lemma missing_input_exits_witness :
  path_exists (sample_world (Supported []) false []) (resolve (sample_world (Supported []) false []) (lit "talk.mp4")) = false /\
  trascrivi sample_runtime (sample_world (Supported []) false []) (lit "talk.mp4") 5 init =
  (Exited 1,
   {| stdout := [lit "Errore: File non trovato: /media/talk.mp4"];
      files := [];
      calls := [] |}).
Proof.
  split; [reflexivity|].
  rewrite (missing_input_exits sample_runtime (sample_world (Supported []) false [])
             (lit "talk.mp4") 5 init eq_refl).
  reflexivity.
Defined.



(** C10.  In a run that completes, the text file holds the metadata
    field [testo_completo] (the stripped texts joined by single
    newlines) followed by one newline when the segment list is not
    empty; when it is empty both are empty. *)
Theorem txt_matches_testo_completo rt w input_file beam_size gen info s :
  completes w input_file beam_size gen info ->
  exists out txt srt doc testo,
    trascrivi rt w input_file beam_size s =
    (Done tt,
     {| stdout := out;
        files := files s ++
          [ (artifact (resolve w input_file) ".txt", txt);
            (artifact (resolve w input_file) ".srt", srt);
            (artifact (resolve w input_file) ".json", json_dumps rt doc) ];
        calls := calls s ++
          [ LoadModel (selected_model w);
            Transcribe (request_for w input_file beam_size) ] |}) /\
    txt = txt_document (List.map to_seg_data (yielded gen)) /\
    jget "testo_completo" doc = Some (JStr testo) /\
    testo = join nl (List.map (fun seg => strip (seg_text seg)) (yielded gen)) /\
    (yielded gen <> [] -> txt = testo ++ nl) /\
    (yielded gen = [] -> txt = [] /\ testo = []).
Proof.
  intros H.
  destruct (trascrivi_completes rt w input_file beam_size gen info s H) as (out & Hrun).
  exists out. do 2 eexists. exists (metadata rt w input_file beam_size gen info).
  eexists. split; [exact Hrun|]. split; [reflexivity|]. split; [reflexivity|].
  split; [reflexivity|].
  assert (E : txt_lines (List.map to_seg_data (yielded gen)) =
              List.map (fun seg => strip (seg_text seg)) (yielded gen)).
  { unfold txt_lines. rewrite map_map. reflexivity. }
  split.
  - intros Hne. unfold txt_document. rewrite E. apply join_lines.
    destruct (yielded gen); [congruence|discriminate].
  - intros ->. split; reflexivity.
Qed.

Lemma txt_matches_testo_completo_witness :
  completes (sample_world (Supported []) true [sample_segment]) (lit "talk.mp4") 5
            {| yielded := [sample_segment]; failure := None |} sample_info /\
  exists out srt doc,
    trascrivi sample_runtime (sample_world (Supported []) true [sample_segment])
      (lit "talk.mp4") 5 init =
    (Done tt,
     {| stdout := out;
        files :=
          [ ({| parent := lit "/media"; name := lit "talk_trascrizione.txt" |},
             lit "Hello world" ++ nl);
            ({| parent := lit "/media"; name := lit "talk_trascrizione.srt" |}, srt);
            ({| parent := lit "/media"; name := lit "talk_trascrizione.json" |},
             json_dumps sample_runtime doc) ];
        calls :=
          [ LoadModel (selected_model (sample_world (Supported []) true [sample_segment]));
            Transcribe (request_for (sample_world (Supported []) true [sample_segment])
                          (lit "talk.mp4") 5) ] |}) /\
    jget "testo_completo" doc = Some (JStr (lit "Hello world")).
Proof.
  split; [apply sample_completes|].
  destruct (txt_matches_testo_completo sample_runtime
              (sample_world (Supported []) true [sample_segment]) (lit "talk.mp4") 5
              {| yielded := [sample_segment]; failure := None |} sample_info init
              (sample_completes _))
    as (out & txt & srt & doc & testo & Hrun & Htxt & Hdoc & Htesto & _).
  exists out, srt, doc. subst txt testo. split; [exact Hrun|exact Hdoc].
Defined.
